(** * Game Guide Bot: a shallow embedding of [game_guide_bot.py]

    The bot is a Discord client with two event handlers ([on_ready],
    [on_message]), a site ingestion coroutine ([read_site]) and a
    completion helper ([send_llm_msg]).  Handlers are embedded as
    computations in a state-and-exception monad over a record holding the
    module globals, the vector collections, the placeholders posted to the
    channel and the log of effects performed on the outside world.

    - Libraries the program calls (the prompt builder, the completion
      endpoint, HTTP, the codec, the HTML converter, the chunker, the
      ranking of the vector store) are fields of a [World] record; every
      statement below holds for every world.
    - A coroutine is a computation; awaiting it runs it.  A coroutine that
      is built and not awaited is a value that is dropped.
    - The gateway dispatches one event after the other and each handler
      runs to its end; interleaving of handlers at their await points is
      not modelled. *)

From Stdlib Require Import ZArith String Ascii List Lia DecimalString.
From stdpp Require Import base option list gmap strings.

Local Open Scope Z_scope.

(** ** Exceptions and results *)

Inductive exn : Type :=
| ValueError
| NameError
| IndexError
| StopIteration
| RuntimeError (what : string).

Inductive result (A : Type) : Type :=
| Ok (a : A)
| Err (e : exn).
Arguments Ok {A} a.
Arguments Err {A} e.

Definition result_bind {A B} (r : result A) (k : A -> result B) : result B :=
  match r with
  | Ok a => k a
  | Err e => Err e
  end.

(** ** Python [str] operations used by the program *)

Module PyStr.

(** [s.startswith(p)] *)
Definition startswith (s p : string) : bool := String.prefix p s.

(** [s[:n]] *)
Fixpoint take (n : nat) (s : string) {struct s} : string :=
  match n, s with
  | S n', String c s' => String c (take n' s')
  | _, _ => EmptyString
  end.

(** [s[n:]] *)
Fixpoint drop (n : nat) (s : string) {struct s} : string :=
  match n, s with
  | S n', String _ s' => drop n' s'
  | _, _ => s
  end.

(** [s.find(sub)]: index of the first occurrence, [None] for Python's -1. *)
Fixpoint find (sub s : string) : option nat :=
  if String.prefix sub s then Some 0%nat
  else match s with
       | EmptyString => None
       | String _ s' => S <$> find sub s'
       end.

(** [sub in s] *)
Definition contains (sub s : string) : bool :=
  match find sub s with
  | Some _ => true
  | None => false
  end.

(** [s.partition(sep)]: split around the first occurrence of [sep];
    an empty separator raises [ValueError]. *)
Definition partition (s sep : string) : result (string * string * string) :=
  match sep with
  | EmptyString => Err ValueError
  | _ =>
      match find sep s with
      | Some i => Ok (take i s, sep, drop (i + String.length sep) s)
      | None => Ok (s, EmptyString, EmptyString)
      end
  end.

(** [str(n)] for an [int]. *)
Definition of_int (n : Z) : string := NilZero.string_of_int (Z.to_int n).

End PyStr.

(** ** Mention stripping ([on_message], lines 124-126) *)

(** [mention_str = f'<@{client.user.id}>'] *)
Definition mention_str (uid : Z) : string :=
  "<@" +:+ PyStr.of_int uid +:+ ">".

(** [clean_msg = message.content.partition(mention_str)];
    [clean_msg = clean_msg[0] + clean_msg[2]] *)
Definition clean_msg (uid : Z) (content : string) : result string :=
  result_bind (PyStr.partition content (mention_str uid))
    (fun parts => Ok (parts.1.1 +:+ parts.2)).

(** ** Data model *)

(** Values of the duck-typed parameter object [llm.params]. *)
Inductive pyval : Type :=
| VNone
| VInt (n : Z)
| VStr (s : string).

(** The fields of a [discord.Message] that the handler reads.  Users are
    compared by id, so a user is its id. *)
Record Message := {
  author : Z;
  content : string;
  mentions : list Z;
  mention_everyone : bool;
  channel : Z
}.

(** The logged-in [discord.Client]: [client.user.id] and [client.guilds]. *)
Record Client := {
  user : Z;
  guilds : list Z
}.

(** discord.py's [ClientUser.mentioned_in(message)]: an everyone/here ping
    or an explicit mention of the user. *)
Definition mentioned_in (uid : Z) (m : Message) : bool :=
  mention_everyone m || existsb (Z.eqb uid) (mentions m).

(** The payload of the completion endpoint: a list of choices, each with
    its generated text. *)
Record Completion := { choices : list string }.

(** Modelled from the spec: [oapi_choice1_text] of the ogbujipt package is
    not part of the sources; 4.6 and 6 say it extracts the text of the
    first completion choice and signals an error on a malformed payload. *)
Definition oapi_choice1_text (r : Completion) : result string :=
  match choices r with
  | c :: _ => Ok c
  | [] => Err IndexError
  end.

(** What [read_site] reads of an [httpx.Response]. *)
Record HttpResponse := {
  resp_content : list Init.Byte.byte;
  resp_encoding : option string
}.

(** A stored chunk.  The embedding is a function of the text (4.2), so a
    record is kept as its text and its metadata mapping. *)
Record VectorRecord := {
  vr_text : string;
  vr_meta : gmap string string
}.

(** The object built by [openai_emulation(host, port)]. *)
Record LLM := {
  llm_host : option string;
  llm_port : option string;
  params : gmap string pyval
}.

(** Arguments of a [print] call. *)
Inductive printed : Type :=
| PStr (s : string)
| PInt (n : Z)
| PCompletion (r : Completion)
| PRecords (l : list VectorRecord).

(** Effects on the outside world, in the order they happen. *)
Inductive event : Type :=
| EvPrint (args : list printed)
| EvSend (chan : Z) (text : string)
| EvEdit (handle : nat) (text : string)
| EvCompletion (prompt : string) (kwargs : gmap string pyval)
| EvHttpGet (url : string)
| EvSplit (text : string) (chunk_size chunk_overlap : Z) (separator : string)
| EvLoadModel (name : string)
| EvUpsert (coll : nat) (texts : list string) (metas : list (gmap string string))
| EvSearch (coll : nat) (query : string) (limit : Z).

(** Module globals ([llm], [embedding_model]), the vector collections
    created so far (a collection object is its index), the messages the bot
    has posted (a message handle is its index) and the effect log. *)
Record state := {
  llm : option LLM;
  embedding_model : option string;
  collections : list (list VectorRecord);
  posted : list (Z * string);
  trace : list event
}.

Definition initial_state : state :=
  {| llm := None; embedding_model := None; collections := [];
     posted := []; trace := [] |}.

(** The external collaborators: prompt builder, the constructor of the
    completion client object ([openai_emulation(host=..., port=...)], whose
    initial parameters are the library's business), completion endpoint and
    the time its executor takes, HTTP, codec, HTML conversion, chunker, and
    the nearest-neighbour ranking of the vector store. *)
Record World := {
  context_build : string -> string;
  openai_emulation : option string -> option string -> LLM;
  openai_api_surrogate : string -> gmap string pyval -> result Completion;
  latency : string -> nat;
  http_get : string -> result HttpResponse;
  decode : list Init.Byte.byte -> string -> result string;
  html2text : string -> string;
  text_splitter : string -> Z -> Z -> string -> list string;
  nearest : string -> list VectorRecord -> list VectorRecord
}.

(** ** The state-and-exception monad *)

Definition M (A : Type) : Type := state -> result A * state.

Definition ret {A} (a : A) : M A := fun st => (Ok a, st).

Definition raise {A} (e : exn) : M A := fun st => (Err e, st).

Definition bind {A B} (c : M A) (k : A -> M B) : M B :=
  fun st =>
    match c st with
    | (Ok a, st') => k a st'
    | (Err e, st') => (Err e, st')
    end.

Notation "x <- c ;; k" := (bind c (fun x => k))
  (at level 20, c at level 99, k at level 200, only parsing).
Notation "c ;; k" := (bind c (fun _ => k))
  (at level 100, k at level 200, right associativity, only parsing).

Definition lift {A} (r : result A) : M A := fun st => (r, st).

(** State updates: appending to the effect log, replacing the posted
    messages, replacing the collections. *)
Definition log (evs : list event) (st : state) : state :=
  {| llm := llm st; embedding_model := embedding_model st;
     collections := collections st; posted := posted st;
     trace := trace st ++ evs |}.

Definition set_posted (ps : list (Z * string)) (st : state) : state :=
  {| llm := llm st; embedding_model := embedding_model st;
     collections := collections st; posted := ps; trace := trace st |}.

Definition set_collections (cs : list (list VectorRecord)) (st : state) : state :=
  {| llm := llm st; embedding_model := embedding_model st;
     collections := cs; posted := posted st; trace := trace st |}.

Definition emit (e : event) : M unit := fun st => (Ok tt, log [e] st).

Definition print (args : list printed) : M unit := emit (EvPrint args).

Definition nl : string := String (ascii_of_nat 10) EmptyString.

Definition get_state : M state := fun st => (Ok st, st).

Definition put_llm (l : LLM) : M unit :=
  fun st =>
    (Ok tt, {| llm := Some l; embedding_model := embedding_model st;
               collections := collections st; posted := posted st;
               trace := trace st |}).

Definition put_embedding_model (name : string) : M unit :=
  fun st =>
    (Ok tt, {| llm := llm st; embedding_model := Some name;
               collections := collections st; posted := posted st;
               trace := trace st |}).

Definition put_collections (cs : list (list VectorRecord)) : M unit :=
  fun st => (Ok tt, set_collections cs st).

Definition put_posted (ps : list (Z * string)) : M unit :=
  fun st => (Ok tt, set_posted ps st).

(** ** asyncio: tasks and [asyncio.wait] *)

(** A task on the event loop: the loop tick at which it completes and the
    result or exception it then holds. *)
Record Task (A : Type) := {
  finishes_at : nat;
  outcome : result A
}.
Arguments finishes_at {A} t.
Arguments outcome {A} t.

Module asyncio.

(** [asyncio.create_task(coro)]: the coroutine is run by the loop and its
    result, or the exception it raised, is stored in the task. *)
Definition create_task {A} (delay : nat) (coro : M A) : M (Task A) :=
  fun st =>
    let (r, st') := coro st in
    (Ok {| finishes_at := delay; outcome := r |}, st').

(** [await asyncio.wait(tasks, return_when=FIRST_COMPLETED)]: suspend
    until the earliest task of the set completes, then return the tasks
    that are done by then and those still pending.  An empty set raises
    [ValueError]. *)
Definition wait_first_completed {A} (tasks : list (Task A))
  : result (list (Task A) * list (Task A)) :=
  match tasks with
  | [] => Err ValueError
  | t :: ts =>
      let now := fold_right Nat.min (finishes_at t) (map finishes_at ts) in
      Ok (List.filter (fun t' => finishes_at t' <=? now)%nat tasks,
          List.filter (fun t' => negb (finishes_at t' <=? now)%nat) tasks)
  end.

(** [next(iter(done))] *)
Definition next_iter {A} (s : list A) : result A :=
  match s with
  | x :: _ => Ok x
  | [] => Err StopIteration
  end.

(** [task.result()]: the stored result, or the stored exception raised. *)
Definition task_result {A} (t : Task A) : result A := outcome t.

End asyncio.

(** ** Module constants *)

Definition EMBED_CHUNK_SIZE : Z := 200.
Definition EMBED_CHUNK_OVERLAP : Z := 20.
Definition DOC_EMBEDDINGS_LLM : string := "all-MiniLM-L12-v2".
Definition WEBSITE : string :=
  "https://ffxiv.consolegameswiki.com/wiki/Anabaseios:_The_Twelfth_Circle_(Savage)".
Definition THROBBER : string := "<a:oori_throbber:1119445227732742265>".

(** [if not url.startswith('http'): url = 'https://' + url] (line 135) *)
Definition normalize_url (url : string) : string :=
  if PyStr.startswith url "http" then url else "https://" +:+ url.

(** [resp.encoding or 'utf-8'] *)
Definition encoding_or_utf8 (resp : HttpResponse) : string :=
  match resp_encoding resp with
  | None | Some EmptyString => "utf-8"
  | Some enc => enc
  end.

Section program.
Context (W : World) (client : Client).

(** *** Messaging platform *)

(** [await message.channel.send(text)] *)
Definition channel_send (chan : Z) (text : string) : M nat :=
  st <- get_state ;;
  emit (EvSend chan text) ;;
  put_posted (posted st ++ [(chan, text)]) ;;
  ret (length (posted st)).

(** [await msg.edit(content=text)] *)
Definition message_edit (handle : nat) (text : string) : M unit :=
  st <- get_state ;;
  match posted st !! handle with
  | Some (chan, _) =>
      emit (EvEdit handle text) ;;
      put_posted (<[handle := (chan, text)]> (posted st))
  | None => raise (RuntimeError "unknown message")
  end.

(** *** Vector collection *)

(** Modelled from the spec: [qdrant_collection] of the ogbujipt package is
    not part of the sources; by 4.3 it is an in-memory store that starts
    empty. *)
Definition qdrant_collection (name : string) (model : option string) : M nat :=
  st <- get_state ;;
  put_collections (collections st ++ [[]]) ;;
  ret (length (collections st)).

(** Modelled from the spec: the collection's [update] is not part of the
    sources; by 4.3 the upsert stores one record per text with its
    metadata and updates the count. *)
Definition collection_update (coll : nat) (texts : list string)
    (metas : list (gmap string string)) : M unit :=
  st <- get_state ;;
  match collections st !! coll with
  | Some recs =>
      emit (EvUpsert coll texts metas) ;;
      put_collections
        (<[coll := recs ++ zip_with Build_VectorRecord texts metas]> (collections st))
  | None => raise (RuntimeError "unknown collection")
  end.

(** Modelled from the spec: the collection's [count] is not part of the
    sources; by 4.3 it returns the current number of stored records. *)
Definition collection_count (coll : nat) : M Z :=
  st <- get_state ;;
  match collections st !! coll with
  | Some recs => ret (Z.of_nat (length recs))
  | None => raise (RuntimeError "unknown collection")
  end.

(** Modelled from the spec: the collection's [search] is not part of the
    sources; by 4.3 it returns the [limit] nearest records, nearest
    first. *)
Definition collection_search (coll : nat) (query : string) (limit : Z)
  : M (list VectorRecord) :=
  st <- get_state ;;
  match collections st !! coll with
  | Some recs =>
      emit (EvSearch coll query limit) ;;
      ret (take (Z.to_nat limit) (nearest W query recs))
  | None => raise (RuntimeError "unknown collection")
  end.

(** *** Completion ([send_llm_msg], lines 76-102) *)

(** [schedule_callable(openai_api_surrogate, prompt, **kwargs)]: run the
    blocking request in an executor and return what it returns. *)
Definition schedule_callable (prompt : string) (kwargs : gmap string pyval)
  : M Completion :=
  emit (EvCompletion prompt kwargs) ;;
  lift (openai_api_surrogate W prompt kwargs).

(** The global [llm]; reading it before [main] has bound it is a
    [NameError]. *)
Definition global_llm : M LLM :=
  st <- get_state ;;
  match llm st with
  | Some l => ret l
  | None => raise NameError
  end.

Definition send_llm_msg (msg : string) : M string :=
  let prompt := context_build W msg in
  print [PStr prompt; PStr nl] ;;
  l <- global_llm ;;
  llm_task <- asyncio.create_task (latency W prompt)
                (schedule_callable prompt (params l)) ;;
  let tasks := [llm_task] in
  waited <- lift (asyncio.wait_first_completed tasks) ;;
  let done := waited.1 in
  first_done <- lift (asyncio.next_iter done) ;;
  response <- lift (asyncio.task_result first_done) ;;
  print [PStr (nl +:+ "Full response data from LLM:" +:+ nl); PCompletion response] ;;
  response_text <- lift (oapi_choice1_text response) ;;
  print [PStr (nl +:+ "Response text from LLM:" +:+ nl); PStr response_text] ;;
  ret response_text.

(** *** Message router ([on_message], lines 105-130) *)

(** The guard of lines 110-112. *)
Definition ignored (message : Message) : bool :=
  (author message =? user client)
  || negb (mentioned_in (user client) message)
  || negb (PyStr.contains (PyStr.of_int (user client)) (content message)).

Definition on_message (message : Message) : M unit :=
  if ignored message then ret tt
  else
    return_msg <- channel_send (channel message) THROBBER ;;
    clean <- lift (clean_msg (user client) (content message)) ;;
    response <- send_llm_msg clean ;;
    message_edit return_msg (PyStr.take 2000 response).

(** *** Site ingestion ([read_site], lines 133-152) *)

Definition read_site (url : string) (collection : nat) : M unit :=
  let url := normalize_url url in
  print [PStr "Downloading & processing"; PStr url] ;;
  emit (EvHttpGet url) ;;
  resp <- lift (http_get W url) ;;
  html <- lift (decode W (resp_content resp) (encoding_or_utf8 resp)) ;;
  let text := html2text W html in
  emit (EvSplit text EMBED_CHUNK_SIZE EMBED_CHUNK_OVERLAP nl) ;;
  let chunks := text_splitter W text EMBED_CHUNK_SIZE EMBED_CHUNK_OVERLAP nl in
  let metas := replicate (length chunks) ({[ "url" := url ]} : gmap string string) in
  collection_update collection chunks metas ;;
  n <- collection_count collection ;;
  print [PStr (PyStr.of_int n +:+ " chunks added to collection")].

(** *** Startup ([on_ready], lines 155-169) *)

(** Calling an [async def] function builds a coroutine object; its body
    runs only when the object is awaited.  Line 166 calls [read_site]
    without [await] and drops the object. *)
Definition on_ready : M unit :=
  print [PStr ("Game Guide Bot is ready. Connected to "
               +:+ PyStr.of_int (Z.of_nat (length (guilds client)))
               +:+ " guild(s).")] ;;
  emit (EvLoadModel DOC_EMBEDDINGS_LLM) ;;
  put_embedding_model DOC_EMBEDDINGS_LLM ;;
  st <- get_state ;;
  collection <- qdrant_collection "website_collection" (embedding_model st) ;;
  _ <- ret (read_site WEBSITE collection) ;;
  hits <- collection_search collection "ff14" 999 ;;
  print [PRecords hits] ;;
  n <- collection_count collection ;;
  print [PStr "COUNT:"; PInt n].

(** *** Entry point ([main], lines 172-187) *)

(** [load_dotenv()]: variables of the [.env] file join the process
    environment; variables already set are kept. *)
Definition load_dotenv (dotenv environ : gmap string string)
  : gmap string string := environ ∪ dotenv.

Definition getenv_val (environ : gmap string string) (key : string) : pyval :=
  match environ !! key with
  | Some v => VStr v
  | None => VNone
  end.

(** Runs up to [client.run(DISCORD_TOKEN)] and returns the token handed to
    it. *)
Definition main (dotenv environ : gmap string string) : M (option string) :=
  let environ := load_dotenv dotenv environ in
  let DISCORD_TOKEN := environ !! "DISCORD_TOKEN" in
  let LLM_HOST := environ !! "LLM_HOST" in
  let LLM_PORT := environ !! "LLM_PORT" in
  let l := openai_emulation W LLM_HOST LLM_PORT in
  let l := {| llm_host := llm_host l; llm_port := llm_port l;
              params := <["llmtemp" := getenv_val environ "LLM_TEMP"]> (params l) |} in
  let l := {| llm_host := llm_host l; llm_port := llm_port l;
              params := <["max_tokens" := VInt 512]> (params l) |} in
  put_llm l ;;
  ret DISCORD_TOKEN.

(** Events the gateway dispatches to the handlers. *)
Inductive gateway_event : Type :=
| Ready
| MessageCreate (m : Message).

Definition dispatch (ev : gateway_event) : M unit :=
  match ev with
  | Ready => on_ready
  | MessageCreate m => on_message m
  end.

(** [client.run]: handlers run one event after the other; an exception
    escaping a handler ends that handler only. *)
Fixpoint client_run (evs : list gateway_event) (st : state) : state :=
  match evs with
  | [] => st
  | ev :: evs' => client_run evs' (dispatch ev st).2
  end.

Definition program (dotenv environ : gmap string string)
    (evs : list gateway_event) : state :=
  client_run evs (main dotenv environ initial_state).2.

End program.

(** ** Observations on the effect log *)

(** The placeholder edits of a log: handle and new content. *)
Definition edits (tr : list event) : list (nat * string) :=
  omap (fun e => match e with EvEdit h t => Some (h, t) | _ => None end) tr.

(** The messages sent to a channel. *)
Definition sends (tr : list event) : list (Z * string) :=
  omap (fun e => match e with EvSend c t => Some (c, t) | _ => None end) tr.

(** The requests made to the completion endpoint. *)
Definition completions (tr : list event) : list (string * gmap string pyval) :=
  omap (fun e => match e with EvCompletion p kw => Some (p, kw) | _ => None end) tr.

(** The upserts into vector collections. *)
Definition upserts (tr : list event)
  : list (nat * list string * list (gmap string string)) :=
  omap (fun e => match e with EvUpsert c ts ms => Some (c, ts, ms) | _ => None end) tr.

(** The URLs fetched. *)
Definition fetches (tr : list event) : list string :=
  omap (fun e => match e with EvHttpGet u => Some u | _ => None end) tr.

(** A chunker call respects the invariant of the data model and uses the
    configured values. *)
Definition split_ok (e : event) : Prop :=
  match e with
  | EvSplit _ size overlap _ => overlap < size /\ size = 200 /\ overlap = 20
  | _ => True
  end.

(** A completion request carries [max_tokens = 512]. *)
Definition max_tokens_512 (e : event) : Prop :=
  match e with
  | EvCompletion _ kw => kw !! "max_tokens" = Some (VInt 512)
  | _ => True
  end.

(** What a handler may do under a given binding of the global [llm]:
    completion requests carry that object's parameters, chunker calls use
    the module constants. *)
Definition event_ok (l : option LLM) (e : event) : Prop :=
  match e with
  | EvCompletion _ kw => exists cfg, l = Some cfg /\ kw = params cfg
  | EvSplit _ size overlap _ =>
      size = EMBED_CHUNK_SIZE /\ overlap = EMBED_CHUNK_OVERLAP
  | _ => True
  end.

(** [st'] comes after [st]: the global [llm] is the same object and the log
    grew by allowed events only. *)
Definition evolves (st st' : state) : Prop :=
  llm st' = llm st /\
  exists new, trace st' = trace st ++ new /\ Forall (event_ok (llm st)) new.

(** Every run of the computation moves the state forward in that sense. *)
Definition steady {A} (c : M A) : Prop := forall st, evolves st (c st).2.

(** ** The spec's wording, for comparison with the code *)

Section spec_side.
Context (W : World).

(** 4.6: with one task in flight the completion is a plain await of the
    callable. *)
Definition send_llm_msg_plain (msg : string) : M string :=
  let prompt := context_build W msg in
  print [PStr prompt; PStr nl] ;;
  l <- global_llm ;;
  response <- schedule_callable W prompt (params l) ;;
  print [PStr (nl +:+ "Full response data from LLM:" +:+ nl); PCompletion response] ;;
  response_text <- lift (oapi_choice1_text response) ;;
  print [PStr (nl +:+ "Response text from LLM:" +:+ nl); PStr response_text] ;;
  ret response_text.

End spec_side.

(** 4.4: "prefixes scheme if missing".  A URL names its scheme before the
    first ["://"]. *)
Definition has_scheme (url : string) : bool := PyStr.contains "://" url.

Definition prefix_scheme_if_missing (url : string) : string :=
  if has_scheme url then url else "https://" +:+ url.

(** ** A concrete deployment, for evaluating the handlers *)

Module Demo.

Definition page : string := "<html><body>Hello world</body></html>".

(** The end-to-end scenarios of section 8: one reachable page, an
    endpoint answering every prompt, a chunker that keeps a short text
    whole. *)
Definition world : World :=
  {| context_build := fun m =>
       "### Instruction:" +:+ nl +:+ m +:+ nl +:+ "### Response:";
     openai_emulation := fun host port =>
       {| llm_host := host; llm_port := port; params := ∅ |};
     openai_api_surrogate := fun _ _ => Ok {| choices := ["X is a letter"] |};
     latency := fun _ => 3%nat;
     http_get := fun u =>
       if String.eqb u "https://example.test/page"
       then Ok {| resp_content := []; resp_encoding := None |}
       else Err (RuntimeError "ConnectError");
     decode := fun _ _ => Ok page;
     html2text := fun _ => "Hello world";
     text_splitter := fun t _ _ _ => [t];
     nearest := fun _ recs => recs |}.

Definition bot : Client := {| user := 42; guilds := [1] |}.

Definition bot123 : Client := {| user := 123; guilds := [1] |}.

Definition question : Message :=
  {| author := 7; content := "<@42> what is X"; mentions := [42];
     mention_everyone := false; channel := 5 |}.

Definition hello : Message :=
  {| author := 7; content := "<@123> hello"; mentions := [123];
     mention_everyone := false; channel := 5 |}.

Definition chatter : Message :=
  {| author := 7; content := "nobody asked 42"; mentions := [];
     mention_everyone := false; channel := 5 |}.

Definition environ : gmap string string :=
  {[ "DISCORD_TOKEN" := "token"; "LLM_HOST" := "http://my-llm-host";
     "LLM_PORT" := "8000"; "LLM_TEMP" := "0.5"; "max_tokens" := "4096" ]}.

(** The state after [main]. *)
Definition started : state := (main world ∅ environ initial_state).2.

(** The state after [main] and the creation of one empty collection. *)
Definition with_collection : state :=
  (qdrant_collection "website_collection" None started).2.

End Demo.

(** ** Further observations on the handlers *)

(** The chunker calls of a log. *)
Definition splits (tr : list event) : list (string * Z * Z * string) :=
  omap (fun e => match e with
                 | EvSplit t size overlap sep => Some (t, size, overlap, sep)
                 | _ => None
                 end) tr.

(** What the two gateway handlers log: the placeholder is the only text
    sent, an edit carries at most 2000 characters, and nothing of the
    ingestion pipeline (fetch, chunker, upsert) appears. *)
Definition tame (e : event) : Prop :=
  match e with
  | EvSend _ text => text = THROBBER
  | EvEdit _ text => (String.length text <= 2000)%nat
  | EvHttpGet _ | EvSplit _ _ _ _ | EvUpsert _ _ _ => False
  | _ => True
  end.

(** A step of the message router: collections and embedding model are
    untouched and the log grows by tame events. *)
Definition chat_step (st st' : state) : Prop :=
  collections st' = collections st /\
  embedding_model st' = embedding_model st /\
  exists new, trace st' = trace st ++ new /\ Forall tame new.

(** Every run of the computation is related to its start by [R]. *)
Definition keeps (R : state -> state -> Prop) {A} (c : M A) : Prop :=
  forall st, R st (c st).2.

(** Nothing has been ingested: every collection is empty and the log is
    tame. *)
Definition idle (st : state) : Prop :=
  Forall (fun recs : list VectorRecord => recs = []) (collections st) /\
  Forall tame (trace st).

(** The number of [Ready] events among those dispatched. *)
Definition readies (evs : list gateway_event) : nat :=
  length (List.filter (fun ev => match ev with Ready => true | _ => false end) evs).

(** The state with its retrieval side (embedding model and collections)
    replaced. *)
Definition with_retrieval (model : option string)
    (cs : list (list VectorRecord)) (st : state) : state :=
  {| llm := llm st; embedding_model := model; collections := cs;
     posted := posted st; trace := trace st |}.

(** The computation commutes with a change [f] of the state: it reads
    nothing that [f] changes and writes nothing that [f] sets. *)
Definition commutes (f : state -> state) {A} (c : M A) : Prop :=
  forall st, c (f st) = ((c st).1, f (c st).2).

(** What the ingestion logs: nothing of the chat side (send, edit,
    completion request). *)
Definition quiet (e : event) : Prop :=
  match e with
  | EvSend _ _ | EvEdit _ _ | EvCompletion _ _ => False
  | _ => True
  end.

(** A step of the ingestion: the chat side of the state is untouched and
    the log grows by quiet events. *)
Definition ingest_step (st st' : state) : Prop :=
  llm st' = llm st /\ posted st' = posted st /\
  embedding_model st' = embedding_model st /\
  exists new, trace st' = trace st ++ new /\ Forall quiet new.

(** The number of dispatched messages that pass the guard of
    [on_message]. *)
Definition handled_count (client : Client) (evs : list gateway_event) : nat :=
  length (List.filter
            (fun ev => match ev with
                       | MessageCreate m => negb (ignored client m)
                       | Ready => false
                       end) evs).

(** The parameter object that [main] builds from an environment when the
    client object comes without parameters of its own. *)
Definition startup_params (environ : gmap string string) : gmap string pyval :=
  <["max_tokens" := VInt 512]>
    (<["llmtemp" := getenv_val environ "LLM_TEMP"]> ∅).

(** A deployment whose completion endpoint is unreachable, and one whose
    endpoint answers without any choice. *)
Module Outage.

Definition unreachable : World :=
  {| context_build := context_build Demo.world;
     openai_emulation := openai_emulation Demo.world;
     openai_api_surrogate := fun _ _ => Err (RuntimeError "ConnectError");
     latency := latency Demo.world;
     http_get := http_get Demo.world;
     decode := decode Demo.world;
     html2text := html2text Demo.world;
     text_splitter := text_splitter Demo.world;
     nearest := nearest Demo.world |}.

Definition nickname_mention : Message :=
  {| author := 7; content := "<@!42> what is X"; mentions := [42];
     mention_everyone := false; channel := 5 |}.

Definition everyone_ping : Message :=
  {| author := 7; content := "@everyone raid at nine"; mentions := [];
     mention_everyone := true; channel := 5 |}.

(** An everyone ping that names nobody and happens to quote the number 42. *)
Definition potions : Message :=
  {| author := 7; content := "@everyone bring 42 potions"; mentions := [];
     mention_everyone := true; channel := 5 |}.

End Outage.

(** ** Facts about strings *)

Section string_facts.
Implicit Types s t u p : string.

Lemma app_nil_l s : "" +:+ s = s.
Proof. reflexivity. Qed.

Lemma app_cons c s t : String c s +:+ t = String c (s +:+ t).
Proof. reflexivity. Qed.

Lemma app_nil_r s : s +:+ "" = s.
Proof. induction s as [|c s IH]; [done | by rewrite app_cons, IH]. Qed.

Lemma app_assoc s t u : (s +:+ t) +:+ u = s +:+ t +:+ u.
Proof. induction s as [|c s IH]; [done | by rewrite !app_cons, IH]. Qed.

Lemma length_app s t :
  String.length (s +:+ t) = (String.length s + String.length t)%nat.
Proof. induction s as [|c s IH]; [done | rewrite app_cons; simpl; by rewrite IH]. Qed.

Lemma prefix_app p t : String.prefix p (p +:+ t) = true.
Proof.
  induction p as [|c p IH]; [by destruct t |].
  rewrite app_cons. simpl. destruct (ascii_dec c c); [done | congruence].
Qed.

Lemma prefix_inv p s : String.prefix p s = true -> exists t, s = p +:+ t.
Proof.
  revert s. induction p as [|c p IH]; intros s H.
  - by exists s.
  - destruct s as [|d s]; simpl in H; [done |].
    destruct (ascii_dec c d) as [->|]; [| done].
    destruct (IH _ H) as [t ->]. by exists t.
Qed.

Lemma take_app s t : PyStr.take (String.length s) (s +:+ t) = s.
Proof.
  induction s as [|c s IH]; [by destruct t |].
  rewrite app_cons. simpl. by rewrite IH.
Qed.

Lemma drop_app s t : PyStr.drop (String.length s) (s +:+ t) = t.
Proof. induction s as [|c s IH]; [by destruct t | by rewrite app_cons]. Qed.

Lemma take_all n s : (String.length s <= n)%nat -> PyStr.take n s = s.
Proof.
  revert n. induction s as [|c s IH]; intros [|n] H; simpl in *; try done; try lia.
  rewrite IH; [done | lia].
Qed.

Lemma length_take n s : String.length (PyStr.take n s) = Nat.min n (String.length s).
Proof.
  revert n. induction s as [|c s IH]; intros [|n]; simpl; try done.
  by rewrite IH.
Qed.

Lemma find_unfold sub s :
  PyStr.find sub s =
  if String.prefix sub s then Some 0%nat
  else match s with
       | EmptyString => None
       | String _ s' => S <$> PyStr.find sub s'
       end.
Proof. by destruct s. Qed.

(** A successful [find] splits the string at the leftmost occurrence. *)
Lemma find_Some sub s i :
  PyStr.find sub s = Some i ->
  exists pre post,
    s = pre +:+ sub +:+ post /\ String.length pre = i /\
    forall pre' post', s = pre' +:+ sub +:+ post' -> (i <= String.length pre')%nat.
Proof.
  revert i. induction s as [|c s IH]; intros i; rewrite find_unfold.
  - destruct (String.prefix sub "") eqn:Hp; [| done].
    intros [= <-]. destruct (prefix_inv _ _ Hp) as [t Ht].
    exists "", t. split_and!; [done | done | intros; lia].
  - destruct (String.prefix sub (String c s)) eqn:Hp.
    + intros [= <-]. destruct (prefix_inv _ _ Hp) as [t Ht].
      exists "", t. split_and!; [done | done | intros; lia].
    + destruct (PyStr.find sub s) as [j|] eqn:Hf; simpl; [| done].
      intros [= <-]. destruct (IH j eq_refl) as (pre & post & -> & Hlen & Hmin).
      exists (String c pre), post. split_and!; [done | simpl; lia |].
      intros [|d pre'] post' Heq.
      * rewrite app_nil_l in Heq. rewrite Heq, prefix_app in Hp. done.
      * rewrite app_cons in Heq. injection Heq as _ Heq.
        specialize (Hmin _ _ Heq). simpl. lia.
Qed.

(** A failed [find] means the substring does not occur at all. *)
Lemma find_None sub s :
  PyStr.find sub s = None -> forall pre post, s <> pre +:+ sub +:+ post.
Proof.
  induction s as [|c s IH]; rewrite find_unfold.
  - destruct (String.prefix sub "") eqn:Hp; [done |].
    intros _ [|d pre] post Heq; [| done].
    rewrite app_nil_l in Heq. rewrite Heq, prefix_app in Hp. done.
  - destruct (String.prefix sub (String c s)) eqn:Hp; [done |].
    destruct (PyStr.find sub s) eqn:Hf; simpl; [done |].
    intros _ [|d pre] post Heq.
    + rewrite app_nil_l in Heq. rewrite Heq, prefix_app in Hp. done.
    + rewrite app_cons in Heq. injection Heq as _ Heq. by eapply IH.
Qed.

Lemma mention_str_cons uid :
  mention_str uid = String "<" (String "@" (PyStr.of_int uid +:+ ">")).
Proof. reflexivity. Qed.

End string_facts.

(** ** Running computations *)

Section runs.
Context {A B : Type}.
Implicit Types (c : M A) (k : A -> M B).

Lemma bind_ok c k st a st' : c st = (Ok a, st') -> bind c k st = k a st'.
Proof. intros H. unfold bind. by rewrite H. Qed.

Lemma bind_err c k st e st' : c st = (Err e, st') -> bind c k st = (Err e, st').
Proof. intros H. unfold bind. by rewrite H. Qed.

Lemma bind_lift_ok (r : result A) k st a : r = Ok a -> bind (lift r) k st = k a st.
Proof. by intros ->. Qed.

Lemma bind_lift_err (r : result A) k st e :
  r = Err e -> bind (lift r) k st = (Err e, st).
Proof. by intros ->. Qed.

End runs.

Lemma log_log evs evs' st : log evs' (log evs st) = log (evs ++ evs') st.
Proof. unfold log. simpl. by rewrite <- (assoc_L (++)). Qed.

Lemma channel_send_run chan text st :
  channel_send chan text st =
  (Ok (length (posted st)),
   set_posted (posted st ++ [(chan, text)]) (log [EvSend chan text] st)).
Proof. reflexivity. Qed.

Lemma message_edit_run handle text st chan old :
  posted st !! handle = Some (chan, old) ->
  message_edit handle text st =
  (Ok tt, set_posted (<[handle := (chan, text)]> (posted st))
            (log [EvEdit handle text] st)).
Proof. intros H. unfold message_edit, bind, get_state. by rewrite H. Qed.

(** With a single task in the set, the first completion is that task. *)
Lemma wait_singleton {A} (t : Task A) :
  asyncio.wait_first_completed [t] = Ok ([t], []).
Proof.
  unfold asyncio.wait_first_completed. simpl. by rewrite Nat.leb_refl.
Qed.

Ltac fields := cbn [llm embedding_model collections posted trace fst snd].

Ltac run :=
  cbv [bind ret raise lift emit print get_state put_posted put_collections
       put_embedding_model put_llm global_llm schedule_callable
       asyncio.create_task asyncio.next_iter asyncio.task_result
       log set_posted set_collections];
  fields.

Lemma send_llm_msg_unfold W msg st :
  send_llm_msg W msg st = send_llm_msg_plain W msg st.
Proof.
  unfold send_llm_msg, send_llm_msg_plain. run.
  destruct (llm st) as [l|]; [| done].
  rewrite wait_singleton. run.
  by destruct (openai_api_surrogate W (context_build W msg) (params l)).
Qed.

Lemma send_llm_msg_ok W msg st l resp text :
  llm st = Some l ->
  openai_api_surrogate W (context_build W msg) (params l) = Ok resp ->
  oapi_choice1_text resp = Ok text ->
  send_llm_msg W msg st =
  (Ok text,
   log [EvPrint [PStr (context_build W msg); PStr nl];
        EvCompletion (context_build W msg) (params l);
        EvPrint [PStr (nl +:+ "Full response data from LLM:" +:+ nl); PCompletion resp];
        EvPrint [PStr (nl +:+ "Response text from LLM:" +:+ nl); PStr text]] st).
Proof.
  intros Hl Hresp Htext. rewrite send_llm_msg_unfold.
  unfold send_llm_msg_plain. run. rewrite Hl, Hresp, Htext. fields.
  by rewrite <- !(assoc_L (++)).
Qed.

(** ** Mention stripping *)

Lemma clean_msg_cases uid content :
  clean_msg uid content =
  match PyStr.find (mention_str uid) content with
  | Some i => Ok (PyStr.take i content +:+
                  PyStr.drop (i + String.length (mention_str uid)) content)
  | None => Ok (content +:+ "")
  end.
Proof.
  unfold clean_msg, PyStr.partition. rewrite mention_str_cons.
  by destruct (PyStr.find _ content).
Qed.

Lemma clean_msg_total uid content : exists clean, clean_msg uid content = Ok clean.
Proof. rewrite clean_msg_cases. destruct (PyStr.find _ _); eauto. Qed.

Lemma take_drop n s : s = PyStr.take n s +:+ PyStr.drop n s.
Proof.
  revert n. induction s as [|c s IH]; intros [|n]; try done.
  simpl. rewrite app_cons. f_equal. apply IH.
Qed.

Lemma app_inv_length s1 t1 s2 t2 :
  s1 +:+ t1 = s2 +:+ t2 -> String.length s1 = String.length s2 ->
  s1 = s2 /\ t1 = t2.
Proof.
  revert s2. induction s1 as [|c s1 IH]; intros [|d s2] Heq Hlen; try done.
  rewrite !app_cons in Heq. injection Heq as -> Heq.
  destruct (IH s2 Heq) as [-> ->]; [simpl in Hlen; lia | done].
Qed.

Lemma find_leftmost sub s i pre post :
  PyStr.find sub s = Some i -> s = pre +:+ sub +:+ post ->
  (i <= String.length pre)%nat.
Proof.
  intros Hf Heq. destruct (find_Some _ _ _ Hf) as (_ & _ & _ & _ & Hmin). eauto.
Qed.

(** ** The message router *)

Lemma ignored_author client m : author m = user client -> ignored client m = true.
Proof. intros H. unfold ignored. by rewrite H, Z.eqb_refl. Qed.

Lemma ignored_not_mentioned client m :
  mentioned_in (user client) m = false -> ignored client m = true.
Proof. intros H. unfold ignored. rewrite H. by destruct (author m =? user client). Qed.

(** A message written by the bot itself, or one for which [mentioned_in]
    is false (no ping of any kind reaches the bot), is ignored: the handler
    returns at once and leaves the state as it was. *)
Lemma unpinged_messages_do_nothing (W : World) (client : Client)
    (m : Message) (st : state) :
  author m = user client \/ mentioned_in (user client) m = false ->
  on_message W client m st = (Ok tt, st) /\
  exists new,
    trace (on_message W client m st).2 = trace st ++ new /\
    completions new = [] /\ sends new = [] /\ edits new = [].
Proof.
  intros H.
  assert (ignored client m = true) as Hign
    by (destruct H; eauto using ignored_author, ignored_not_mentioned).
  unfold on_message. rewrite Hign. split; [done |].
  exists []. by rewrite (right_id_L [] (++)).
Qed.

(** C6: waiting for the first completion over the one-element task set
    returns what a plain await of the completion callable returns: both
    computations give the same result (text or exception) and the same
    final state, for every message, parameter object and latency. *)
Theorem C6_single_task_wait_is_plain_await (W : World) (msg : string) (st : state) :
  send_llm_msg W msg st = send_llm_msg_plain W msg st /\
  (send_llm_msg W msg st).1 =
    match llm st with
    | Some l =>
        result_bind
          (openai_api_surrogate W (context_build W msg) (params l))
          oapi_choice1_text
    | None => Err NameError
    end.
Proof.
  split; [apply send_llm_msg_unfold |].
  rewrite send_llm_msg_unfold. unfold send_llm_msg_plain. run.
  destruct (llm st) as [l|]; [| done].
  destruct (openai_api_surrogate W (context_build W msg) (params l)) as [resp|];
    [| done].
  simpl. by destruct (oapi_choice1_text resp).
Qed.

(** C3: when a mention is handled and the completion returns a text, the
    placeholder posted for it is edited exactly once, and the new content is
    the first 2000 characters of that text: a prefix of the text, at most
    2000 characters long, and the whole text when it has at most 2000. *)
Theorem C3_placeholder_edited_once_truncated (W : World) (client : Client)
    (m : Message) (st : state) (l : LLM) (clean : string)
    (resp : Completion) (text : string) :
  ignored client m = false ->
  llm st = Some l ->
  clean_msg (user client) (content m) = Ok clean ->
  openai_api_surrogate W (context_build W clean) (params l) = Ok resp ->
  oapi_choice1_text resp = Ok text ->
  exists st' new,
    on_message W client m st = (Ok tt, st') /\
    trace st' = trace st ++ new /\
    sends new = [(channel m, THROBBER)] /\
    edits new = [(length (posted st), PyStr.take 2000 text)] /\
    posted st' = posted st ++ [(channel m, PyStr.take 2000 text)] /\
    (String.length (PyStr.take 2000 text) <= 2000)%nat /\
    text = PyStr.take 2000 text +:+ PyStr.drop 2000 text /\
    ((String.length text <= 2000)%nat -> PyStr.take 2000 text = text).
Proof.
  intros Hign Hl Hclean Hresp Htext.
  unfold on_message. rewrite Hign.
  erewrite bind_ok by apply channel_send_run.
  erewrite bind_lift_ok by exact Hclean.
  erewrite bind_ok by (eapply send_llm_msg_ok; [exact Hl | exact Hresp | exact Htext]).
  erewrite message_edit_run by (cbn; apply list_lookup_middle; reflexivity).
  do 2 eexists. split; [reflexivity |]. cbn.
  split_and!.
  - rewrite <- !(assoc_L (++)). reflexivity.
  - reflexivity.
  - reflexivity.
  - by rewrite insert_app_r_alt, Nat.sub_diag.
  - rewrite length_take. lia.
  - apply take_drop.
  - apply take_all.
Qed.

Lemma C3_witness :
  exists st' new,
    on_message Demo.world Demo.bot Demo.question Demo.started = (Ok tt, st') /\
    trace st' = trace Demo.started ++ new /\
    sends new = [(5, THROBBER)] /\
    edits new = [(0%nat, PyStr.take 2000 "X is a letter")] /\
    posted st' = [(5, PyStr.take 2000 "X is a letter")] /\
    (String.length (PyStr.take 2000 "X is a letter") <= 2000)%nat /\
    "X is a letter" = PyStr.take 2000 "X is a letter" +:+ PyStr.drop 2000 "X is a letter" /\
    ((String.length "X is a letter" <= 2000)%nat ->
     PyStr.take 2000 "X is a letter" = "X is a letter").
Proof.
  eapply (C3_placeholder_edited_once_truncated
            Demo.world Demo.bot Demo.question Demo.started);
    reflexivity.
Defined.

(** C9: mention stripping removes the first occurrence of the mention token
    and nothing else.  If the content splits as [pre], token, [post] with no
    occurrence of the token starting further left, the cleaned message is
    [pre] followed by [post]; if the token does not occur, the cleaned
    message is the content. *)
Theorem C9_first_mention_only (uid : Z) (content : string) :
  (forall pre post,
     content = pre +:+ mention_str uid +:+ post ->
     (forall pre' post',
        content = pre' +:+ mention_str uid +:+ post' ->
        (String.length pre <= String.length pre')%nat) ->
     clean_msg uid content = Ok (pre +:+ post)) /\
  ((forall pre post, content <> pre +:+ mention_str uid +:+ post) ->
   clean_msg uid content = Ok content).
Proof.
  rewrite clean_msg_cases. split.
  - intros pre post Heq Hmin.
    destruct (PyStr.find (mention_str uid) content) as [i|] eqn:Hf.
    + destruct (find_Some _ _ _ Hf) as (pre1 & post1 & Heq1 & Hlen1 & Hmin1).
      assert (String.length pre = String.length pre1) as Hlen.
      { specialize (Hmin _ _ Heq1). specialize (Hmin1 _ _ Heq). lia. }
      assert (i = String.length pre) as -> by lia.
      rewrite Heq at 1 2.
      rewrite take_app.
      rewrite <- (app_assoc pre), <- length_app, drop_app. done.
    + by destruct (find_None _ _ Hf pre post).
  - intros Hno.
    destruct (PyStr.find (mention_str uid) content) as [i|] eqn:Hf.
    + destruct (find_Some _ _ _ Hf) as (pre1 & post1 & Heq1 & _).
      by destruct (Hno pre1 post1).
    + by rewrite app_nil_r.
Qed.

Lemma C9_witness :
  clean_msg 42 "hi <@42> there <@42>!" = Ok "hi  there <@42>!" /\
  clean_msg 42 "no mention here" = Ok "no mention here".
Proof.
  split.
  - apply (proj1 (C9_first_mention_only 42 "hi <@42> there <@42>!")
             "hi " " there <@42>!"); [reflexivity |].
    intros pre' post' Heq.
    apply (find_leftmost (mention_str 42) "hi <@42> there <@42>!" 3 pre' post');
      [reflexivity | exact Heq].
  - apply (proj2 (C9_first_mention_only 42 "no mention here")).
    apply find_None. reflexivity.
Defined.

Lemma send_llm_msg_first_event W msg st :
  exists rest,
    trace (send_llm_msg W msg st).2
    = trace st ++ EvPrint [PStr (context_build W msg); PStr nl] :: rest.
Proof.
  rewrite send_llm_msg_unfold. unfold send_llm_msg_plain. run.
  destruct (llm st) as [l|]; fields; [| by eexists].
  destruct (openai_api_surrogate W (context_build W msg) (params l)) as [resp|];
    fields; [| rewrite <- !(assoc_L (++)); by eexists].
  destruct (oapi_choice1_text resp); fields;
    rewrite <- !(assoc_L (++)); by eexists.
Qed.

Lemma message_edit_trace handle text st :
  exists rest, trace (message_edit handle text st).2 = trace st ++ rest.
Proof.
  unfold message_edit. run.
  destruct (posted st !! handle) as [[chan old]|]; fields.
  - by eexists.
  - exists []. by rewrite (right_id_L [] (++)).
Qed.

(** C2 (as the code has it): for the content "<@123> hello" and the bot id
    123 the cleaned message is " hello", with the space that followed the
    mention, and that is the message the prompt builder receives: the
    handler posts the placeholder and then logs the prompt built from
    " hello". *)
Theorem C2_mention_strip_keeps_space (W : World) (client : Client)
    (m : Message) (st : state) :
  user client = 123 ->
  content m = "<@123> hello" ->
  ignored client m = false ->
  clean_msg (user client) (content m) = Ok " hello" /\
  exists rest,
    trace (on_message W client m st).2
    = trace st ++ EvSend (channel m) THROBBER
        :: EvPrint [PStr (context_build W " hello"); PStr nl] :: rest.
Proof.
  intros Hid Hcontent Hign.
  assert (clean_msg (user client) (content m) = Ok " hello") as Hclean
    by (rewrite Hid, Hcontent; reflexivity).
  split; [exact Hclean |].
  unfold on_message. rewrite Hign.
  erewrite bind_ok by apply channel_send_run.
  erewrite bind_lift_ok by exact Hclean.
  set (st1 := set_posted _ _).
  destruct (send_llm_msg_first_event W " hello" st1) as [rest Hrest].
  unfold bind.
  destruct (send_llm_msg W " hello" st1) as [[response|e] st2]; simpl in Hrest |- *.
  - destruct (message_edit_trace (length (posted st)) (PyStr.take 2000 response) st2)
      as [rest' ->].
    rewrite Hrest. subst st1. cbn. rewrite <- !(assoc_L (++)). by eexists.
  - rewrite Hrest. subst st1. cbn. rewrite <- !(assoc_L (++)). by eexists.
Qed.

Lemma C2_witness :
  clean_msg 123 "<@123> hello" = Ok " hello" /\
  exists rest,
    trace (on_message Demo.world Demo.bot123 Demo.hello Demo.started).2
    = trace Demo.started ++ EvSend 5 THROBBER
        :: EvPrint [PStr (context_build Demo.world " hello"); PStr nl] :: rest.
Proof.
  apply (C2_mention_strip_keeps_space Demo.world Demo.bot123 Demo.hello Demo.started);
    reflexivity.
Defined.

(** C2 as stated fails on the code: the cleaned message is not "hello". *)
Lemma C2_counterexample : clean_msg 123 "<@123> hello" <> Ok "hello".
Proof. discriminate. Qed.

(** ** Handlers keep the global [llm] and log only allowed events *)

Lemma evolves_same st st' :
  llm st' = llm st -> trace st' = trace st -> evolves st st'.
Proof.
  intros Hl Ht. split; [done |]. exists []. by rewrite (right_id_L [] (++)).
Qed.

Lemma evolves_refl st : evolves st st.
Proof. by apply evolves_same. Qed.

Lemma evolves_trans st1 st2 st3 :
  evolves st1 st2 -> evolves st2 st3 -> evolves st1 st3.
Proof.
  intros [Hl1 (new1 & Ht1 & Hok1)] [Hl2 (new2 & Ht2 & Hok2)].
  split; [congruence |].
  exists (new1 ++ new2). split.
  - by rewrite Ht2, Ht1, <- (assoc_L (++)).
  - rewrite Hl1 in Hok2. by apply Forall_app.
Qed.

Section steady_rules.
Context {A B : Type}.

Lemma steady_ret (a : A) : steady (ret a).
Proof. intros st. apply evolves_refl. Qed.

Lemma steady_raise (e : exn) : steady (raise (A := A) e).
Proof. intros st. apply evolves_refl. Qed.

Lemma steady_lift (r : result A) : steady (lift r).
Proof. intros st. apply evolves_refl. Qed.

Lemma steady_bind (c : M A) (k : A -> M B) :
  steady c -> (forall a, steady (k a)) -> steady (bind c k).
Proof.
  intros Hc Hk st. unfold bind. specialize (Hc st).
  destruct (c st) as [[a|e] st1]; simpl in Hc; [| done].
  eapply evolves_trans; [exact Hc | apply Hk].
Qed.

End steady_rules.

Lemma steady_get_state : steady get_state.
Proof. intros st. apply evolves_refl. Qed.

Lemma steady_emit e : (forall l, event_ok l e) -> steady (emit e).
Proof.
  intros He st. split; [done |]. exists [e]. split; [done |].
  by apply Forall_singleton.
Qed.

Lemma steady_put_posted ps : steady (put_posted ps).
Proof. intros st. by apply evolves_same. Qed.

Lemma steady_put_collections cs : steady (put_collections cs).
Proof. intros st. by apply evolves_same. Qed.

Lemma steady_put_embedding_model name : steady (put_embedding_model name).
Proof. intros st. by apply evolves_same. Qed.

Create HintDb steady discriminated.
#[local] Hint Resolve steady_ret steady_raise steady_lift steady_get_state
  steady_put_posted steady_put_collections steady_put_embedding_model : steady.

Ltac steady :=
  repeat first
    [ progress (eauto with steady)
    | apply steady_emit; intros ?; first [exact I | done]
    | match goal with
      | |- steady (bind _ _) => apply steady_bind; [| intros ?]
      | |- steady (match ?x with _ => _ end) => destruct x
      | |- steady (let '(_, _) := ?x in _) => destruct x
      end ].

Lemma steady_send_llm_msg W msg : steady (send_llm_msg W msg).
Proof.
  intros st. unfold evolves.
  rewrite send_llm_msg_unfold. unfold send_llm_msg_plain. run.
  destruct (llm st) as [l|]; fields.
  - assert (event_ok (Some l) (EvCompletion (context_build W msg) (params l)))
      by (by exists l).
    destruct (openai_api_surrogate W (context_build W msg) (params l)) as [resp|];
      fields; [destruct (oapi_choice1_text resp); fields |];
      (split; [done |]); rewrite <- !(assoc_L (++));
      (eexists; split; [reflexivity |]); repeat constructor; done.
  - split; [done |]. eexists. split; [reflexivity |]. by repeat constructor.
Qed.

#[local] Hint Resolve steady_send_llm_msg : steady.

Lemma steady_on_message W client m : steady (on_message W client m).
Proof.
  unfold on_message, channel_send, message_edit.
  destruct (ignored client m); steady.
Qed.

Lemma steady_read_site W url coll : steady (read_site W url coll).
Proof.
  unfold read_site, print, collection_update, collection_count. cbv zeta. steady.
Qed.

Lemma steady_on_ready W client : steady (on_ready W client).
Proof.
  unfold on_ready, print, qdrant_collection, collection_search, collection_count.
  steady.
Qed.

Lemma steady_dispatch W client ev : steady (dispatch W client ev).
Proof. destruct ev; [apply steady_on_ready | apply steady_on_message]. Qed.

Lemma evolves_client_run W client evs st : evolves st (client_run W client evs st).
Proof.
  revert st. induction evs as [|ev evs IH]; intros st; simpl.
  - apply evolves_refl.
  - eapply evolves_trans; [apply steady_dispatch | apply IH].
Qed.

(** ** Startup configuration *)

Lemma main_run W dotenv environ st :
  main W dotenv environ st =
  (Ok (load_dotenv dotenv environ !! "DISCORD_TOKEN"),
   {| llm := Some
        {| llm_host :=
             llm_host (openai_emulation W
                         (load_dotenv dotenv environ !! "LLM_HOST")
                         (load_dotenv dotenv environ !! "LLM_PORT"));
           llm_port :=
             llm_port (openai_emulation W
                         (load_dotenv dotenv environ !! "LLM_HOST")
                         (load_dotenv dotenv environ !! "LLM_PORT"));
           params := <["max_tokens" := VInt 512]>
                       (<["llmtemp" := getenv_val (load_dotenv dotenv environ) "LLM_TEMP"]>
                          (params (openai_emulation W
                                     (load_dotenv dotenv environ !! "LLM_HOST")
                                     (load_dotenv dotenv environ !! "LLM_PORT")))) |};
      embedding_model := embedding_model st;
      collections := collections st; posted := posted st; trace := trace st |}).
Proof. reflexivity. Qed.

Lemma main_max_tokens W dotenv environ st :
  exists l, llm (main W dotenv environ st).2 = Some l /\
            params l !! "max_tokens" = Some (VInt 512).
Proof.
  rewrite main_run. eexists. split; [reflexivity |]. apply lookup_insert_eq.
Qed.

Lemma event_ok_max_tokens l e :
  params l !! "max_tokens" = Some (VInt 512) ->
  event_ok (Some l) e -> max_tokens_512 e.
Proof.
  intros Hl. destruct e; simpl; try done.
  intros (cfg & [= <-] & ->). exact Hl.
Qed.

Lemma event_ok_split l e : event_ok l e -> split_ok e.
Proof.
  destruct e; simpl; try done. unfold EMBED_CHUNK_SIZE, EMBED_CHUNK_OVERLAP.
  intros [-> ->]. lia.
Qed.

Lemma program_evolves W client dotenv environ evs :
  evolves (main W dotenv environ initial_state).2
          (program W client dotenv environ evs).
Proof. apply evolves_client_run. Qed.

(** C10: every completion request of a run of the program carries
    [max_tokens = 512], whatever the environment holds; the global [llm]
    still has that value at the end; and [llm] is determined by the
    variables LLM_HOST, LLM_PORT and LLM_TEMP alone: two environments that
    agree on these three give the same [llm]. *)
Theorem C10_max_tokens_fixed_at_512 (W : World) (client : Client)
    (dotenv environ : gmap string string) (evs : list gateway_event) :
  Forall max_tokens_512 (trace (program W client dotenv environ evs)) /\
  (exists l, llm (program W client dotenv environ evs) = Some l /\
             params l !! "max_tokens" = Some (VInt 512)) /\
  forall dotenv' environ',
    (forall key, key ∈ ["LLM_HOST"; "LLM_PORT"; "LLM_TEMP"] ->
       load_dotenv dotenv' environ' !! key = load_dotenv dotenv environ !! key) ->
    llm (program W client dotenv' environ' evs)
    = llm (program W client dotenv environ evs).
Proof.
  destruct (program_evolves W client dotenv environ evs) as [Hllm (new & Ht & Hok)].
  destruct (main_max_tokens W dotenv environ initial_state) as (l & Hl & H512).
  split_and!.
  - rewrite Ht, main_run. simpl. rewrite Hl in Hok.
    eapply Forall_impl; [exact Hok |]. intros e. by apply event_ok_max_tokens.
  - exists l. by rewrite Hllm.
  - intros dotenv' environ' Hagree.
    destruct (program_evolves W client dotenv' environ' evs) as [Hllm' _].
    rewrite Hllm, Hllm', !main_run. cbn [llm snd]. unfold getenv_val.
    rewrite !Hagree; [done | set_solver..].
Qed.

Lemma C10_witness :
  Forall max_tokens_512
    (trace (program Demo.world Demo.bot ∅ Demo.environ
              [Ready; MessageCreate Demo.question; MessageCreate Demo.chatter])) /\
  completions
    (trace (program Demo.world Demo.bot ∅ Demo.environ
              [Ready; MessageCreate Demo.question]))
  <> [].
Proof.
  split.
  - apply (C10_max_tokens_fixed_at_512 Demo.world Demo.bot ∅ Demo.environ).
  - vm_compute. discriminate.
Defined.

(** C7: every chunker call of the program has overlap 20 and size 200, so
    the overlap is below the chunk size: in every run of the program, and in
    every run of [read_site] from any state; and [read_site] does call the
    chunker with these values once the page is fetched and decoded. *)
Theorem C7_chunker_overlap_below_size (W : World) (client : Client) :
  EMBED_CHUNK_OVERLAP < EMBED_CHUNK_SIZE /\
  (forall dotenv environ evs,
     Forall split_ok (trace (program W client dotenv environ evs))) /\
  (forall url coll st,
     exists new,
       trace (read_site W url coll st).2 = trace st ++ new /\
       Forall split_ok new) /\
  (forall url coll st resp html,
     http_get W (normalize_url url) = Ok resp ->
     decode W (resp_content resp) (encoding_or_utf8 resp) = Ok html ->
     EvSplit (html2text W html) 200 20 nl ∈ trace (read_site W url coll st).2).
Proof.
  split_and!.
  - reflexivity.
  - intros dotenv environ evs.
    destruct (program_evolves W client dotenv environ evs) as [_ (new & -> & Hok)].
    rewrite main_run. simpl.
    eapply Forall_impl; [exact Hok |]. intros e. apply event_ok_split.
  - intros url coll st.
    destruct (steady_read_site W url coll st) as [_ (new & Ht & Hok)].
    exists new. split; [done |].
    eapply Forall_impl; [exact Hok |]. intros e. apply event_ok_split.
  - intros url coll st resp html Hget Hdec.
    unfold read_site. cbv zeta.
    erewrite bind_ok by reflexivity.
    erewrite bind_ok by reflexivity.
    erewrite bind_lift_ok by exact Hget.
    erewrite bind_lift_ok by exact Hdec.
    erewrite bind_ok by reflexivity.
    match goal with |- _ ∈ trace (?c ?s).2 =>
      assert (steady c) as Hst by (unfold collection_update, collection_count, print; steady);
      destruct (Hst s) as [_ (new & -> & _)]
    end.
    cbn. set_solver.
Qed.

Lemma C7_witness :
  EvSplit "Hello world" 200 20 nl
  ∈ trace (read_site Demo.world "example.test/page" 0 Demo.with_collection).2.
Proof.
  apply (proj2 (proj2 (proj2
           (C7_chunker_overlap_below_size Demo.world Demo.bot)))
           "example.test/page" 0%nat Demo.with_collection
           {| resp_content := []; resp_encoding := None |} Demo.page);
    reflexivity.
Defined.

(** ** Site ingestion *)

Lemma zip_with_replicate (meta : gmap string string) (texts : list string) :
  zip_with Build_VectorRecord texts (replicate (length texts) meta)
  = map (fun t => {| vr_text := t; vr_meta := meta |}) texts.
Proof. induction texts as [|t texts IH]; simpl; [done | by rewrite IH]. Qed.

(** Up to the fetch: the two log entries of a run that fails there. *)
Lemma read_site_fetch_err W url coll st e :
  http_get W (normalize_url url) = Err e ->
  read_site W url coll st =
  (Err e, log [EvPrint [PStr "Downloading & processing"; PStr (normalize_url url)];
               EvHttpGet (normalize_url url)] st).
Proof.
  intros Hget. unfold read_site. cbv zeta.
  erewrite bind_ok by reflexivity.
  erewrite bind_ok by reflexivity.
  erewrite bind_lift_err by exact Hget.
  by rewrite log_log.
Qed.

Lemma read_site_decode_err W url coll st resp e :
  http_get W (normalize_url url) = Ok resp ->
  decode W (resp_content resp) (encoding_or_utf8 resp) = Err e ->
  read_site W url coll st =
  (Err e, log [EvPrint [PStr "Downloading & processing"; PStr (normalize_url url)];
               EvHttpGet (normalize_url url)] st).
Proof.
  intros Hget Hdec. unfold read_site. cbv zeta.
  erewrite bind_ok by reflexivity.
  erewrite bind_ok by reflexivity.
  erewrite bind_lift_ok by exact Hget.
  erewrite bind_lift_err by exact Hdec.
  by rewrite log_log.
Qed.

(** C8: when the HTTP fetch or the decoding of the body raises, [read_site]
    raises that same error, performs no upsert, and leaves every collection
    as it was. *)
Theorem C8_fetch_or_decode_error_aborts (W : World) (url : string)
    (coll : nat) (st : state) (e : exn) :
  http_get W (normalize_url url) = Err e \/
  (exists resp,
     http_get W (normalize_url url) = Ok resp /\
     decode W (resp_content resp) (encoding_or_utf8 resp) = Err e) ->
  (read_site W url coll st).1 = Err e /\
  collections (read_site W url coll st).2 = collections st /\
  exists new,
    trace (read_site W url coll st).2 = trace st ++ new /\
    upserts new = [].
Proof.
  intros [Hget | (resp & Hget & Hdec)].
  - rewrite (read_site_fetch_err _ _ _ _ _ Hget).
    split_and!; [done | done |]. by eexists.
  - rewrite (read_site_decode_err _ _ _ _ _ _ Hget Hdec).
    split_and!; [done | done |]. by eexists.
Qed.

Lemma C8_witness :
  (read_site Demo.world "unreachable.test" 0 Demo.with_collection).1
  = Err (RuntimeError "ConnectError") /\
  collections (read_site Demo.world "unreachable.test" 0 Demo.with_collection).2
  = collections Demo.with_collection /\
  exists new,
    trace (read_site Demo.world "unreachable.test" 0 Demo.with_collection).2
    = trace Demo.with_collection ++ new /\
    upserts new = [].
Proof.
  apply (C8_fetch_or_decode_error_aborts Demo.world "unreachable.test" 0
           Demo.with_collection (RuntimeError "ConnectError")).
  left. reflexivity.
Defined.

Lemma read_site_fetched W url coll st resp html :
  http_get W (normalize_url url) = Ok resp ->
  decode W (resp_content resp) (encoding_or_utf8 resp) = Ok html ->
  read_site W url coll st =
  (let chunks := text_splitter W (html2text W html) 200 20 nl in
   collection_update coll chunks
     (replicate (length chunks) {[ "url" := normalize_url url ]}) ;;
   n <- collection_count coll ;;
   print [PStr (PyStr.of_int n +:+ " chunks added to collection")])
    (log [EvPrint [PStr "Downloading & processing"; PStr (normalize_url url)];
          EvHttpGet (normalize_url url);
          EvSplit (html2text W html) 200 20 nl] st).
Proof.
  intros Hget Hdec. unfold read_site. cbv zeta.
  erewrite bind_ok by reflexivity.
  erewrite bind_ok by reflexivity.
  erewrite bind_lift_ok by exact Hget.
  erewrite bind_lift_ok by exact Hdec.
  erewrite bind_ok by reflexivity.
  by rewrite !log_log.
Qed.

(** C5 (as the code has it): [read_site] prefixes "https://" exactly when
    the url does not start with the characters "http" (so
    "example.test/page" becomes "https://example.test/page").  In every
    call, whatever is upserted pairs each text with the metadata mapping of
    the key "url" to that url; and when the page is fetched and decoded,
    the chunks of its text are upserted once, with that mapping each, and
    appended to the collection. *)
Theorem C5_chunks_carry_normalized_url (W : World) (url : string)
    (coll : nat) (st : state) :
  let url' := if PyStr.startswith url "http" then url else "https://" +:+ url in
  let meta : gmap string string := {[ "url" := url' ]} in
  normalize_url "example.test/page" = "https://example.test/page" /\
  (exists new,
     trace (read_site W url coll st).2 = trace st ++ new /\
     forall c texts metas,
       (c, texts, metas) ∈ upserts new ->
       metas = replicate (length texts) meta) /\
  forall resp html recs,
    http_get W url' = Ok resp ->
    decode W (resp_content resp) (encoding_or_utf8 resp) = Ok html ->
    collections st !! coll = Some recs ->
    let chunks := text_splitter W (html2text W html) 200 20 nl in
    exists st' new,
      read_site W url coll st = (Ok tt, st') /\
      trace st' = trace st ++ new /\
      fetches new = [url'] /\
      upserts new = [(coll, chunks, replicate (length chunks) meta)] /\
      collections st' !! coll
      = Some (recs ++ map (fun t => {| vr_text := t; vr_meta := meta |}) chunks).
Proof.
  intros url' meta. change url' with (normalize_url url) in *.
  assert (forall resp html recs,
    http_get W (normalize_url url) = Ok resp ->
    decode W (resp_content resp) (encoding_or_utf8 resp) = Ok html ->
    collections st !! coll = Some recs ->
    let chunks := text_splitter W (html2text W html) 200 20 nl in
    exists st' new,
      read_site W url coll st = (Ok tt, st') /\
      trace st' = trace st ++ new /\
      fetches new = [normalize_url url] /\
      upserts new = [(coll, chunks, replicate (length chunks) meta)] /\
      collections st' !! coll
      = Some (recs ++ map (fun t => {| vr_text := t; vr_meta := meta |}) chunks))
    as Hsuccess.
  { intros resp html recs Hget Hdec Hcoll chunks.
    rewrite (read_site_fetched _ _ _ _ _ _ Hget Hdec). cbv zeta. fold chunks.
    unfold collection_update, collection_count, print. run.
    rewrite Hcoll. fields.
    assert (coll < length (collections st))%nat as Hlt by (by eapply lookup_lt_Some).
    rewrite list_lookup_insert_eq by exact Hlt.
    do 2 eexists. split; [reflexivity |]. fields.
    rewrite <- !(assoc_L (++)).
    split; [reflexivity |]. split_and!; try reflexivity.
    by rewrite list_lookup_insert_eq, zip_with_replicate by exact Hlt. }
  split_and!; [reflexivity | | exact Hsuccess].
  destruct (http_get W (normalize_url url)) as [resp|e] eqn:Hget.
  - destruct (decode W (resp_content resp) (encoding_or_utf8 resp))
      as [html|e] eqn:Hdec.
    + destruct (collections st !! coll) as [recs|] eqn:Hcoll.
      * destruct (Hsuccess resp html recs eq_refl Hdec eq_refl)
          as (st' & new & -> & Ht & _ & Hup & _).
        exists new. split; [exact Ht |]. rewrite Hup.
        intros c texts metas [= -> -> ->]%list_elem_of_singleton. done.
      * rewrite (read_site_fetched _ _ _ _ _ _ Hget Hdec). cbv zeta.
        unfold collection_update. run. rewrite Hcoll. fields.
        eexists. split; [reflexivity |]. simpl. intros c texts metas H.
        by apply not_elem_of_nil in H.
    + rewrite (read_site_decode_err _ _ _ _ _ _ Hget Hdec).
      eexists. split; [reflexivity |]. simpl. intros c texts metas H.
      by apply not_elem_of_nil in H.
  - rewrite (read_site_fetch_err _ _ _ _ _ Hget).
    eexists. split; [reflexivity |]. simpl. intros c texts metas H.
    by apply not_elem_of_nil in H.
Qed.

Lemma C5_witness :
  exists st' new,
    read_site Demo.world "example.test/page" 0 Demo.with_collection = (Ok tt, st') /\
    trace st' = trace Demo.with_collection ++ new /\
    fetches new = ["https://example.test/page"] /\
    upserts new
    = [(0%nat, ["Hello world"],
        [({[ "url" := "https://example.test/page" ]} : gmap string string)])] /\
    collections st' !! 0%nat
    = Some [{| vr_text := "Hello world";
               vr_meta := {[ "url" := "https://example.test/page" ]} |}].
Proof.
  apply (proj2 (proj2 (C5_chunks_carry_normalized_url Demo.world
           "example.test/page" 0 Demo.with_collection))
           {| resp_content := []; resp_encoding := None |} Demo.page []);
    reflexivity.
Defined.

(** C5 as stated fails on the code: "httpbin.org/get" names no scheme, the
    spec's normalisation would prefix one, and [read_site] leaves the url as
    it is because it starts with the characters "http". *)
Lemma C5_counterexample :
  has_scheme "httpbin.org/get" = false /\
  normalize_url "httpbin.org/get" = "httpbin.org/get" /\
  normalize_url "httpbin.org/get" <> prefix_scheme_if_missing "httpbin.org/get".
Proof. split_and!; [reflexivity | reflexivity | discriminate]. Qed.

(** ** Startup *)

(** C1 (the code at the failing input): [on_ready] builds the coroutine of
    [read_site] and never awaits it.  In every world and from every state
    the handler returns normally, the collection it created is empty, the
    log it adds holds no fetch and no upsert, and the count it prints last
    is 0. *)
Theorem C1_on_ready_never_awaits_read_site (W : World) (client : Client)
    (st : state) :
  exists st' new,
    on_ready W client st = (Ok tt, st') /\
    trace st' = trace st ++ new /\
    collections st' = collections st ++ [[]] /\
    fetches new = [] /\
    upserts new = [] /\
    last new = Some (EvPrint [PStr "COUNT:"; PInt 0]).
Proof.
  unfold on_ready, qdrant_collection, collection_search, collection_count, print.
  run. rewrite list_lookup_middle by reflexivity. fields.
  rewrite list_lookup_middle by reflexivity. fields.
  do 2 eexists. split; [reflexivity |]. fields.
  rewrite <- !(assoc_L (++)).
  split; [reflexivity |]. by split_and!.
Qed.

(** ** The message router, case by case *)

Lemma send_llm_msg_request_err W msg st l e :
  llm st = Some l ->
  openai_api_surrogate W (context_build W msg) (params l) = Err e ->
  send_llm_msg W msg st =
  (Err e,
   log [EvPrint [PStr (context_build W msg); PStr nl];
        EvCompletion (context_build W msg) (params l)] st).
Proof.
  intros Hl Hresp. rewrite send_llm_msg_unfold.
  unfold send_llm_msg_plain. run. rewrite Hl, Hresp. fields.
  by rewrite <- !(assoc_L (++)).
Qed.

Lemma send_llm_msg_payload_err W msg st l resp e :
  llm st = Some l ->
  openai_api_surrogate W (context_build W msg) (params l) = Ok resp ->
  oapi_choice1_text resp = Err e ->
  send_llm_msg W msg st =
  (Err e,
   log [EvPrint [PStr (context_build W msg); PStr nl];
        EvCompletion (context_build W msg) (params l);
        EvPrint [PStr (nl +:+ "Full response data from LLM:" +:+ nl); PCompletion resp]] st).
Proof.
  intros Hl Hresp Htext. rewrite send_llm_msg_unfold.
  unfold send_llm_msg_plain. run. rewrite Hl, Hresp, Htext. fields.
  by rewrite <- !(assoc_L (++)).
Qed.

(** The state in which [send_llm_msg] starts: placeholder posted. *)
Lemma on_message_handled W client m st clean :
  ignored client m = false ->
  clean_msg (user client) (content m) = Ok clean ->
  on_message W client m st =
  bind (send_llm_msg W clean)
       (fun response =>
          message_edit (length (posted st)) (PyStr.take 2000 response))
       (set_posted (posted st ++ [(channel m, THROBBER)])
          (log [EvSend (channel m) THROBBER] st)).
Proof.
  intros Hign Hclean. unfold on_message. rewrite Hign.
  erewrite bind_ok by apply channel_send_run.
  by erewrite bind_lift_ok by exact Hclean.
Qed.

Lemma on_message_ok W client m st l clean resp text :
  ignored client m = false ->
  llm st = Some l ->
  clean_msg (user client) (content m) = Ok clean ->
  openai_api_surrogate W (context_build W clean) (params l) = Ok resp ->
  oapi_choice1_text resp = Ok text ->
  on_message W client m st =
  (Ok tt,
   set_posted (posted st ++ [(channel m, PyStr.take 2000 text)])
     (log [EvSend (channel m) THROBBER;
           EvPrint [PStr (context_build W clean); PStr nl];
           EvCompletion (context_build W clean) (params l);
           EvPrint [PStr (nl +:+ "Full response data from LLM:" +:+ nl); PCompletion resp];
           EvPrint [PStr (nl +:+ "Response text from LLM:" +:+ nl); PStr text];
           EvEdit (length (posted st)) (PyStr.take 2000 text)] st)).
Proof.
  intros Hign Hl Hclean Hresp Htext.
  rewrite (on_message_handled _ _ _ _ _ Hign Hclean).
  erewrite bind_ok by (eapply send_llm_msg_ok; [exact Hl | exact Hresp | exact Htext]).
  erewrite message_edit_run by (cbn; apply list_lookup_middle; reflexivity).
  unfold set_posted, log. fields.
  by rewrite insert_app_r_alt, Nat.sub_diag, <- !(assoc_L (++)).
Qed.

Lemma on_message_request_err W client m st l clean e :
  ignored client m = false ->
  llm st = Some l ->
  clean_msg (user client) (content m) = Ok clean ->
  openai_api_surrogate W (context_build W clean) (params l) = Err e ->
  on_message W client m st =
  (Err e,
   set_posted (posted st ++ [(channel m, THROBBER)])
     (log [EvSend (channel m) THROBBER;
           EvPrint [PStr (context_build W clean); PStr nl];
           EvCompletion (context_build W clean) (params l)] st)).
Proof.
  intros Hign Hl Hclean Hresp.
  rewrite (on_message_handled _ _ _ _ _ Hign Hclean).
  erewrite bind_err by (eapply send_llm_msg_request_err; [exact Hl | exact Hresp]).
  unfold set_posted, log. fields. by rewrite <- !(assoc_L (++)).
Qed.

Lemma on_message_payload_err W client m st l clean resp e :
  ignored client m = false ->
  llm st = Some l ->
  clean_msg (user client) (content m) = Ok clean ->
  openai_api_surrogate W (context_build W clean) (params l) = Ok resp ->
  oapi_choice1_text resp = Err e ->
  on_message W client m st =
  (Err e,
   set_posted (posted st ++ [(channel m, THROBBER)])
     (log [EvSend (channel m) THROBBER;
           EvPrint [PStr (context_build W clean); PStr nl];
           EvCompletion (context_build W clean) (params l);
           EvPrint [PStr (nl +:+ "Full response data from LLM:" +:+ nl); PCompletion resp]] st)).
Proof.
  intros Hign Hl Hclean Hresp Htext.
  rewrite (on_message_handled _ _ _ _ _ Hign Hclean).
  erewrite bind_err
    by (eapply send_llm_msg_payload_err; [exact Hl | exact Hresp | exact Htext]).
  unfold set_posted, log. fields. by rewrite <- !(assoc_L (++)).
Qed.

(** X1: when the completion request raises, or its payload has no text to
    extract, [on_message] raises that error after the placeholder was sent:
    the placeholder is never edited and keeps the throbber as its content. *)
Theorem X1_failed_completion_leaves_throbber (W : World) (client : Client)
    (m : Message) (st : state) (l : LLM) (clean : string) (e : exn) :
  ignored client m = false ->
  llm st = Some l ->
  clean_msg (user client) (content m) = Ok clean ->
  openai_api_surrogate W (context_build W clean) (params l) = Err e \/
  (exists resp,
     openai_api_surrogate W (context_build W clean) (params l) = Ok resp /\
     oapi_choice1_text resp = Err e) ->
  exists st' new,
    on_message W client m st = (Err e, st') /\
    trace st' = trace st ++ new /\
    sends new = [(channel m, THROBBER)] /\
    edits new = [] /\
    posted st' = posted st ++ [(channel m, THROBBER)].
Proof.
  intros Hign Hl Hclean [Hresp | (resp & Hresp & Htext)].
  - rewrite (on_message_request_err _ _ _ _ _ _ _ Hign Hl Hclean Hresp).
    do 2 eexists. by split_and!.
  - rewrite (on_message_payload_err _ _ _ _ _ _ _ _ Hign Hl Hclean Hresp Htext).
    do 2 eexists. by split_and!.
Qed.

Lemma X1_witness :
  exists st' new,
    on_message Outage.unreachable Demo.bot Demo.question Demo.started
    = (Err (RuntimeError "ConnectError"), st') /\
    trace st' = trace Demo.started ++ new /\
    sends new = [(5, THROBBER)] /\
    edits new = [] /\
    posted st' = [(5, THROBBER)].
Proof.
  eapply (X1_failed_completion_leaves_throbber
            Outage.unreachable Demo.bot Demo.question Demo.started);
    [reflexivity | reflexivity | reflexivity | left; reflexivity].
Defined.

(** X2: a handled mention makes exactly one completion request, whatever
    the endpoint then does: its prompt is built from the cleaned message,
    its keyword arguments are [llm.params], and the placeholder is sent
    before it. *)
Theorem X2_one_completion_request_per_mention (W : World) (client : Client)
    (m : Message) (st : state) (l : LLM) (clean : string) :
  ignored client m = false ->
  llm st = Some l ->
  clean_msg (user client) (content m) = Ok clean ->
  exists rest,
    trace (on_message W client m st).2
    = trace st ++ EvSend (channel m) THROBBER :: rest /\
    sends rest = [] /\
    completions rest = [(context_build W clean, params l)].
Proof.
  intros Hign Hl Hclean.
  destruct (openai_api_surrogate W (context_build W clean) (params l))
    as [resp|e] eqn:Hresp.
  - destruct (oapi_choice1_text resp) as [text|e] eqn:Htext.
    + rewrite (on_message_ok _ _ _ _ _ _ _ _ Hign Hl Hclean Hresp Htext).
      by eexists.
    + rewrite (on_message_payload_err _ _ _ _ _ _ _ _ Hign Hl Hclean Hresp Htext).
      by eexists.
  - rewrite (on_message_request_err _ _ _ _ _ _ _ Hign Hl Hclean Hresp).
    by eexists.
Qed.

Lemma X2_witness :
  exists rest,
    trace (on_message Demo.world Demo.bot Demo.question Demo.started).2
    = trace Demo.started ++ EvSend 5 THROBBER :: rest /\
    sends rest = [] /\
    completions rest
    = [(context_build Demo.world " what is X", startup_params Demo.environ)].
Proof.
  apply (X2_one_completion_request_per_mention
           Demo.world Demo.bot Demo.question Demo.started
           {| llm_host := Some "http://my-llm-host"; llm_port := Some "8000";
              params := startup_params Demo.environ |}
           " what is X");
    reflexivity.
Defined.

(** ** Substring tests and the mention token *)

Lemma contains_true sub s :
  PyStr.contains sub s = true <-> exists pre post, s = pre +:+ sub +:+ post.
Proof.
  unfold PyStr.contains. split.
  - destruct (PyStr.find sub s) as [i|] eqn:Hf; [| done]. intros _.
    destruct (find_Some _ _ _ Hf) as (pre & post & Heq & _). eauto.
  - intros (pre & post & Heq).
    destruct (PyStr.find sub s) as [i|] eqn:Hf; [done |].
    by destruct (find_None _ _ Hf pre post).
Qed.

Lemma contains_false sub s :
  PyStr.contains sub s = false -> forall pre post, s <> pre +:+ sub +:+ post.
Proof.
  intros Hc pre post Heq.
  assert (PyStr.contains sub s = true) by (apply contains_true; eauto).
  congruence.
Qed.

Lemma contains_inner sub l r s :
  PyStr.contains (l +:+ sub +:+ r) s = true -> PyStr.contains sub s = true.
Proof.
  rewrite !contains_true. intros (pre & post & ->).
  exists (pre +:+ l), (r +:+ post). by rewrite !app_assoc.
Qed.

Lemma clean_msg_without_token uid content :
  PyStr.contains (mention_str uid) content = false ->
  clean_msg uid content = Ok content.
Proof.
  unfold PyStr.contains. rewrite clean_msg_cases.
  destruct (PyStr.find (mention_str uid) content); [done |].
  by rewrite app_nil_r.
Qed.

Lemma on_message_prompt_logged W client m st clean :
  ignored client m = false ->
  clean_msg (user client) (content m) = Ok clean ->
  exists rest,
    trace (on_message W client m st).2
    = trace st ++ EvSend (channel m) THROBBER
        :: EvPrint [PStr (context_build W clean); PStr nl] :: rest.
Proof.
  intros Hign Hclean. rewrite (on_message_handled _ _ _ _ _ Hign Hclean).
  set (st1 := set_posted _ _).
  destruct (send_llm_msg_first_event W clean st1) as [rest Hrest].
  unfold bind.
  destruct (send_llm_msg W clean st1) as [[response|e] st2]; simpl in Hrest |- *.
  - destruct (message_edit_trace (length (posted st)) (PyStr.take 2000 response) st2)
      as [rest' ->].
    rewrite Hrest. subst st1. cbn. rewrite <- !(assoc_L (++)). by eexists.
  - rewrite Hrest. subst st1. cbn. rewrite <- !(assoc_L (++)). by eexists.
Qed.

(** X3: a message whose content does not contain the decimal digits of the
    bot's id is ignored even when it pings the bot (an everyone or here
    ping, or a mention list naming the bot): the handler returns at once
    with the state as it was. *)
Theorem X3_ping_without_id_is_ignored (W : World) (client : Client)
    (m : Message) (st : state) :
  PyStr.contains (PyStr.of_int (user client)) (content m) = false ->
  on_message W client m st = (Ok tt, st).
Proof.
  intros H. unfold on_message, ignored. rewrite H.
  by rewrite orb_true_r.
Qed.

Lemma X3_witness :
  mentioned_in (user Demo.bot) Outage.everyone_ping = true /\
  on_message Demo.world Demo.bot Outage.everyone_ping Demo.started
  = (Ok tt, Demo.started).
Proof.
  split; [reflexivity |].
  apply (X3_ping_without_id_is_ignored Demo.world Demo.bot Outage.everyone_ping
           Demo.started).
  reflexivity.
Defined.

(** X4: a handled message whose content holds the digits of the bot's id
    but not the token "<@id>" (a nickname mention "<@!id>", or an everyone
    ping that quotes the number) is forwarded whole: nothing is stripped and
    the prompt is built from the full content. *)
Theorem X4_handled_without_token_forwards_content (W : World) (client : Client)
    (m : Message) (st : state) :
  ignored client m = false ->
  PyStr.contains (mention_str (user client)) (content m) = false ->
  clean_msg (user client) (content m) = Ok (content m) /\
  exists rest,
    trace (on_message W client m st).2
    = trace st ++ EvSend (channel m) THROBBER
        :: EvPrint [PStr (context_build W (content m)); PStr nl] :: rest.
Proof.
  intros Hign Htok.
  pose proof (clean_msg_without_token _ _ Htok) as Hclean.
  split; [exact Hclean |]. by apply on_message_prompt_logged.
Qed.

Lemma X4_witness :
  clean_msg 42 "<@!42> what is X" = Ok "<@!42> what is X" /\
  exists rest,
    trace (on_message Demo.world Demo.bot Outage.nickname_mention Demo.started).2
    = trace Demo.started ++ EvSend 5 THROBBER
        :: EvPrint [PStr (context_build Demo.world "<@!42> what is X"); PStr nl]
        :: rest.
Proof.
  apply (X4_handled_without_token_forwards_content
           Demo.world Demo.bot Outage.nickname_mention Demo.started);
    reflexivity.
Defined.

(** X5: a content that begins with the mention token is cleaned to what
    follows the token, for every id and every remainder (further tokens in
    the remainder stay). *)
Theorem X5_leading_mention_is_dropped (uid : Z) (rest : string) :
  clean_msg uid (mention_str uid +:+ rest) = Ok rest.
Proof.
  rewrite clean_msg_cases, find_unfold, prefix_app.
  rewrite Nat.add_0_l, drop_app.
  by destruct (mention_str uid +:+ rest).
Qed.

(** X6: mention stripping never raises, and it removes one token's worth of
    characters when the token occurs: the cleaned message and the token
    together are as long as the content. *)
Theorem X6_cleaning_removes_one_token (uid : Z) (content : string) :
  exists clean,
    clean_msg uid content = Ok clean /\
    (PyStr.contains (mention_str uid) content = true ->
     (String.length clean + String.length (mention_str uid))%nat
     = String.length content) /\
    (PyStr.contains (mention_str uid) content = false -> clean = content).
Proof.
  unfold PyStr.contains. rewrite clean_msg_cases.
  destruct (PyStr.find (mention_str uid) content) as [i|] eqn:Hf.
  - eexists. split; [reflexivity |]. split; [intros _ | done].
    destruct (find_Some _ _ _ Hf) as (pre & post & Heq & <- & _).
    rewrite Heq at 1 2. rewrite take_app.
    rewrite <- (app_assoc pre), <- (length_app pre (mention_str uid)), drop_app.
    rewrite Heq, !length_app. lia.
  - eexists. split; [reflexivity |]. split; [done | intros _; apply app_nil_r].
Qed.

Lemma X6_witness :
  exists clean,
    clean_msg 42 "hi <@42> there <@42>!" = Ok clean /\
    (String.length clean + String.length (mention_str 42))%nat
    = String.length "hi <@42> there <@42>!".
Proof.
  destruct (X6_cleaning_removes_one_token 42 "hi <@42> there <@42>!")
    as (clean & Hclean & Hlen & _).
  exists clean. split; [exact Hclean |]. apply Hlen. reflexivity.
Defined.

(** X7: the digits test never screens out a mention written as the token:
    a message from someone else that mentions the bot and holds "<@id>" in
    its content is handled. *)
Theorem X7_token_mention_is_handled (client : Client) (m : Message) :
  author m <> user client ->
  mentioned_in (user client) m = true ->
  PyStr.contains (mention_str (user client)) (content m) = true ->
  ignored client m = false.
Proof.
  intros Hauthor Hment Htok. unfold ignored.
  rewrite Hment, (contains_inner _ "<@" ">" _ Htok).
  by apply Z.eqb_neq in Hauthor as ->.
Qed.

Lemma X7_witness : ignored Demo.bot Demo.question = false.
Proof.
  apply (X7_token_mention_is_handled Demo.bot Demo.question);
    [discriminate | reflexivity | reflexivity].
Defined.

(** ** URL normalisation *)

(** X8: the normalised url always starts with "http", normalising twice is
    normalising once, and the urls left as they are are exactly those that
    start with "http". *)
Theorem X8_normalize_url_idempotent (url : string) :
  PyStr.startswith (normalize_url url) "http" = true /\
  normalize_url (normalize_url url) = normalize_url url /\
  (normalize_url url = url <-> PyStr.startswith url "http" = true).
Proof.
  assert (PyStr.startswith (normalize_url url) "http" = true) as Hstart.
  { unfold normalize_url.
    destruct (PyStr.startswith url "http") eqn:H; [exact H | reflexivity]. }
  split_and!; [exact Hstart | |].
  - unfold normalize_url at 1. by rewrite Hstart.
  - unfold normalize_url.
    destruct (PyStr.startswith url "http") eqn:H; [done |].
    split; [| done]. intros Heq.
    apply (f_equal String.length) in Heq. rewrite length_app in Heq.
    simpl in Heq. lia.
Qed.

(** ** What the gateway handlers never do *)

Section keeps_rules.
Context (R : state -> state -> Prop).
Hypothesis R_refl : forall st, R st st.
Hypothesis R_trans : forall st1 st2 st3, R st1 st2 -> R st2 st3 -> R st1 st3.

Lemma keeps_ret {A} (a : A) : keeps R (ret a).
Proof. intros st. apply R_refl. Qed.

Lemma keeps_raise {A} (e : exn) : keeps R (raise (A := A) e).
Proof. intros st. apply R_refl. Qed.

Lemma keeps_lift {A} (r : result A) : keeps R (lift r).
Proof. intros st. apply R_refl. Qed.

Lemma keeps_get_state : keeps R get_state.
Proof. intros st. apply R_refl. Qed.

Lemma keeps_bind {A B} (c : M A) (k : A -> M B) :
  keeps R c -> (forall a, keeps R (k a)) -> keeps R (bind c k).
Proof.
  intros Hc Hk st. unfold bind. specialize (Hc st).
  destruct (c st) as [[a|e] st1]; simpl in Hc; [| done].
  eapply R_trans; [exact Hc | apply Hk].
Qed.

Lemma keeps_create_task {A} (delay : nat) (c : M A) :
  keeps R c -> keeps R (asyncio.create_task delay c).
Proof.
  intros Hc st. unfold asyncio.create_task. specialize (Hc st).
  by destruct (c st) as [r st1].
Qed.

End keeps_rules.

Lemma chat_step_refl st : chat_step st st.
Proof.
  split_and!; [done | done |]. exists []. by rewrite (right_id_L [] (++)).
Qed.

Lemma chat_step_trans st1 st2 st3 :
  chat_step st1 st2 -> chat_step st2 st3 -> chat_step st1 st3.
Proof.
  intros (Hc1 & He1 & new1 & Ht1 & Hok1) (Hc2 & He2 & new2 & Ht2 & Hok2).
  split_and!; [congruence | congruence |].
  exists (new1 ++ new2). split.
  - by rewrite Ht2, Ht1, <- (assoc_L (++)).
  - by apply Forall_app.
Qed.

Lemma chat_emit e : tame e -> keeps chat_step (emit e).
Proof.
  intros He st. split_and!; [done | done |]. exists [e].
  split; [done |]. by apply Forall_singleton.
Qed.

Lemma chat_put_posted ps : keeps chat_step (put_posted ps).
Proof.
  intros st. split_and!; [done | done |]. exists [].
  by rewrite (right_id_L [] (++)).
Qed.

Ltac chat :=
  repeat first
    [ progress cbv zeta
    | match goal with
      | |- keeps _ (ret _) => apply keeps_ret, chat_step_refl
      | |- keeps _ (raise _) => apply keeps_raise, chat_step_refl
      | |- keeps _ (lift _) => apply keeps_lift, chat_step_refl
      | |- keeps _ get_state => apply keeps_get_state, chat_step_refl
      | |- keeps _ (put_posted _) => apply chat_put_posted
      | |- keeps _ (emit _) =>
          apply chat_emit;
          first [exact I | reflexivity | simpl; rewrite length_take; lia]
      | |- keeps _ (asyncio.create_task _ _) => apply keeps_create_task
      | |- keeps _ (bind _ _) =>
          apply keeps_bind; [apply chat_step_trans | | intros ?]
      | |- keeps _ (match ?x with _ => _ end) => destruct x
      end ].

Lemma chat_on_message W client m : keeps chat_step (on_message W client m).
Proof.
  unfold on_message, channel_send, message_edit, send_llm_msg, print,
    global_llm, schedule_callable.
  destruct (ignored client m); chat.
Qed.

Lemma on_ready_run W client st :
  on_ready W client st =
  (Ok tt,
   {| llm := llm st; embedding_model := Some DOC_EMBEDDINGS_LLM;
      collections := collections st ++ [[]]; posted := posted st;
      trace := trace st ++
        [EvPrint [PStr ("Game Guide Bot is ready. Connected to "
                        +:+ PyStr.of_int (Z.of_nat (length (guilds client)))
                        +:+ " guild(s).")];
         EvLoadModel DOC_EMBEDDINGS_LLM;
         EvSearch (length (collections st)) "ff14" 999;
         EvPrint [PRecords (take (Z.to_nat 999) (nearest W "ff14" []))];
         EvPrint [PStr "COUNT:"; PInt 0]] |}).
Proof.
  unfold on_ready, qdrant_collection, collection_search, collection_count, print.
  run. rewrite list_lookup_middle by reflexivity. fields.
  rewrite list_lookup_middle by reflexivity. fields.
  by rewrite <- !(assoc_L (++)).
Qed.

Lemma tame_log tr :
  Forall tame tr ->
  fetches tr = [] /\ splits tr = [] /\ upserts tr = [] /\
  Forall (fun s => s.2 = THROBBER) (sends tr) /\
  Forall (fun ed => (String.length ed.2 <= 2000)%nat) (edits tr).
Proof.
  induction 1 as [|e tr He _ (IH1 & IH2 & IH3 & IH4 & IH5)]; [done |].
  destruct e; simpl in He |- *; try done;
    split_and!; try done; by constructor.
Qed.

Lemma idle_dispatch W client ev st : idle st -> idle (dispatch W client ev st).2.
Proof.
  intros [Hcoll Htrace]. destruct ev as [|m]; simpl.
  - rewrite on_ready_run. split; simpl.
    + apply Forall_app. split; [exact Hcoll | by constructor].
    + apply Forall_app. split; [exact Htrace | by repeat constructor].
  - destruct (chat_on_message W client m st) as (Hc & _ & new & Ht & Hnew).
    split.
    + by rewrite Hc.
    + rewrite Ht. by apply Forall_app.
Qed.

Lemma idle_client_run W client evs st : idle st -> idle (client_run W client evs st).
Proof.
  revert st. induction evs as [|ev evs IH]; intros st Hst; simpl; [done |].
  by apply IH, idle_dispatch.
Qed.

Lemma idle_program W client dotenv environ evs :
  idle (program W client dotenv environ evs).
Proof. apply idle_client_run. rewrite main_run. by split. Qed.

Lemma client_run_collections W client evs st :
  collections (client_run W client evs st)
  = collections st ++ replicate (readies evs) [].
Proof.
  revert st. induction evs as [|ev evs IH]; intros st; simpl.
  - by rewrite (right_id_L [] (++)).
  - rewrite IH. destruct ev as [|m]; simpl.
    + rewrite on_ready_run. simpl. unfold readies. simpl.
      by rewrite <- (assoc_L (++)).
    + by destruct (chat_on_message W client m st) as (-> & _).
Qed.

(** X9: no run of the program ever ingests anything.  Whatever events the
    gateway dispatches, the log holds no fetch, no chunker call and no
    upsert, and the vector store is one empty collection per [Ready]
    event. *)
Theorem X9_program_never_ingests (W : World) (client : Client)
    (dotenv environ : gmap string string) (evs : list gateway_event) :
  fetches (trace (program W client dotenv environ evs)) = [] /\
  splits (trace (program W client dotenv environ evs)) = [] /\
  upserts (trace (program W client dotenv environ evs)) = [] /\
  collections (program W client dotenv environ evs)
  = replicate (readies evs) [].
Proof.
  destruct (idle_program W client dotenv environ evs) as [_ Htame].
  destruct (tame_log _ Htame) as (Hf & Hs & Hu & _).
  split_and!; [exact Hf | exact Hs | exact Hu |].
  unfold program. by rewrite client_run_collections, main_run.
Qed.

(** X10: every text the program posts respects the message cap: the only
    text it sends is the placeholder, and every edit carries at most 2000
    characters, in every run. *)
Theorem X10_posts_within_message_cap (W : World) (client : Client)
    (dotenv environ : gmap string string) (evs : list gateway_event) :
  Forall (fun s => s.2 = THROBBER)
    (sends (trace (program W client dotenv environ evs))) /\
  Forall (fun ed => (String.length ed.2 <= 2000)%nat)
    (edits (trace (program W client dotenv environ evs))) /\
  (String.length THROBBER <= 2000)%nat.
Proof.
  destruct (idle_program W client dotenv environ evs) as [_ Htame].
  destruct (tame_log _ Htame) as (_ & _ & _ & Hs & He).
  split_and!; [exact Hs | exact He |]. vm_compute. lia.
Qed.

(** ** Independence of the chat side and the retrieval side *)

Section commute_rules.
Context (f : state -> state).

Lemma commutes_ret {A} (a : A) : commutes f (ret a).
Proof. by intros st. Qed.

Lemma commutes_raise {A} (e : exn) : commutes f (raise (A := A) e).
Proof. by intros st. Qed.

Lemma commutes_lift {A} (r : result A) : commutes f (lift r).
Proof. by intros st. Qed.

Lemma commutes_bind {A B} (c : M A) (k : A -> M B) :
  commutes f c -> (forall a, commutes f (k a)) -> commutes f (bind c k).
Proof.
  intros Hc Hk st. unfold bind. rewrite Hc.
  destruct (c st) as [[a|e] st1]; simpl; [apply Hk | done].
Qed.

Lemma commutes_create_task {A} (delay : nat) (c : M A) :
  commutes f c -> commutes f (asyncio.create_task delay c).
Proof.
  intros Hc st. unfold asyncio.create_task. rewrite Hc.
  by destruct (c st) as [r st1].
Qed.

End commute_rules.

Section retrieval_frame.
Context (model : option string) (cs : list (list VectorRecord)).

Lemma retrieval_emit e : commutes (with_retrieval model cs) (emit e).
Proof. by intros st. Qed.

Lemma retrieval_channel_send chan text :
  commutes (with_retrieval model cs) (channel_send chan text).
Proof. by intros st. Qed.

Lemma retrieval_global_llm : commutes (with_retrieval model cs) global_llm.
Proof.
  intros [l em colls ps tr]. unfold global_llm, with_retrieval. run.
  by destruct l.
Qed.

Lemma retrieval_message_edit handle text :
  commutes (with_retrieval model cs) (message_edit handle text).
Proof.
  intros [l em colls ps tr]. unfold message_edit, with_retrieval. run.
  by destruct (ps !! handle) as [[chan old]|].
Qed.

Lemma retrieval_send_llm_msg W msg :
  commutes (with_retrieval model cs) (send_llm_msg W msg).
Proof.
  unfold send_llm_msg, print, schedule_callable. cbv zeta.
  repeat first
    [ apply retrieval_emit | apply retrieval_global_llm
    | apply commutes_lift | apply commutes_ret
    | apply commutes_create_task
    | apply commutes_bind; [| intros ?] ].
Qed.

End retrieval_frame.

(** X11: the reply does not depend on the retrieval side.  Replacing the
    embedding model and the collections before [on_message] runs gives the
    same result and the same final state up to that replacement: the
    handler neither reads nor writes them. *)
Theorem X11_reply_ignores_retrieval (W : World) (client : Client)
    (m : Message) (st : state) (model : option string)
    (cs : list (list VectorRecord)) :
  on_message W client m (with_retrieval model cs st)
  = ((on_message W client m st).1,
     with_retrieval model cs (on_message W client m st).2).
Proof.
  revert st. change (commutes (with_retrieval model cs) (on_message W client m)).
  unfold on_message. destruct (ignored client m); [apply commutes_ret |].
  apply commutes_bind; [apply retrieval_channel_send | intros return_msg].
  apply commutes_bind; [apply commutes_lift | intros clean].
  apply commutes_bind; [apply retrieval_send_llm_msg | intros response].
  apply retrieval_message_edit.
Qed.

Lemma ingest_step_refl st : ingest_step st st.
Proof.
  split_and!; [done | done | done |]. exists [].
  by rewrite (right_id_L [] (++)).
Qed.

Lemma ingest_step_trans st1 st2 st3 :
  ingest_step st1 st2 -> ingest_step st2 st3 -> ingest_step st1 st3.
Proof.
  intros (Hl1 & Hp1 & He1 & new1 & Ht1 & Hok1) (Hl2 & Hp2 & He2 & new2 & Ht2 & Hok2).
  split_and!; [congruence | congruence | congruence |].
  exists (new1 ++ new2). split.
  - by rewrite Ht2, Ht1, <- (assoc_L (++)).
  - by apply Forall_app.
Qed.

Lemma ingest_emit e : quiet e -> keeps ingest_step (emit e).
Proof.
  intros He st. split_and!; [done | done | done |]. exists [e].
  split; [done |]. by apply Forall_singleton.
Qed.

Lemma ingest_put_collections cs : keeps ingest_step (put_collections cs).
Proof.
  intros st. split_and!; [done | done | done |]. exists [].
  by rewrite (right_id_L [] (++)).
Qed.

Ltac ingest :=
  repeat first
    [ progress cbv zeta
    | match goal with
      | |- keeps _ (ret _) => apply keeps_ret, ingest_step_refl
      | |- keeps _ (raise _) => apply keeps_raise, ingest_step_refl
      | |- keeps _ (lift _) => apply keeps_lift, ingest_step_refl
      | |- keeps _ get_state => apply keeps_get_state, ingest_step_refl
      | |- keeps _ (put_collections _) => apply ingest_put_collections
      | |- keeps _ (emit _) => apply ingest_emit; exact I
      | |- keeps _ (bind _ _) =>
          apply keeps_bind; [apply ingest_step_trans | | intros ?]
      | |- keeps _ (match ?x with _ => _ end) => destruct x
      end ].

Lemma ingest_read_site W url coll : keeps ingest_step (read_site W url coll).
Proof.
  unfold read_site, print, collection_update, collection_count. ingest.
Qed.

Lemma quiet_log tr :
  Forall quiet tr -> sends tr = [] /\ edits tr = [] /\ completions tr = [].
Proof.
  induction 1 as [|e tr He _ (IH1 & IH2 & IH3)]; [done |].
  by destruct e.
Qed.

(** X12: the ingestion stays off the chat side.  In every run of
    [read_site], failed or not, the global [llm], the embedding model and
    the messages the bot has posted are as before, and nothing is sent,
    edited or requested from the completion endpoint. *)
Theorem X12_ingestion_leaves_chat_alone (W : World) (url : string)
    (coll : nat) (st : state) :
  llm (read_site W url coll st).2 = llm st /\
  posted (read_site W url coll st).2 = posted st /\
  embedding_model (read_site W url coll st).2 = embedding_model st /\
  exists new,
    trace (read_site W url coll st).2 = trace st ++ new /\
    sends new = [] /\ edits new = [] /\ completions new = [].
Proof.
  destruct (ingest_read_site W url coll st) as (Hl & Hp & He & new & Ht & Hq).
  split_and!; [exact Hl | exact Hp | exact He |].
  exists new. split; [exact Ht |]. by apply quiet_log.
Qed.

(** ** The parameters of a completion request *)

Lemma event_ok_completions l tr :
  Forall (event_ok (Some l)) tr ->
  Forall (fun c => c.2 = params l) (completions tr).
Proof.
  induction 1 as [|e tr He _ IH]; [done |].
  destruct e; simpl in *; try done.
  destruct He as (cfg & [= <-] & ->). by constructor.
Qed.

(** X13: in every run of the program, every completion request carries
    [llmtemp], bound to the string value of LLM_TEMP as it stands in the
    environment, or to [None] when the variable is not set, and
    [max_tokens], bound to 512; every other keyword argument is as the
    object returned by [openai_emulation] held it: the program adds,
    changes and removes none. *)
Theorem X13_completion_kwargs (W : World) (client : Client)
    (dotenv environ : gmap string string) (evs : list gateway_event) :
  Forall
    (fun c =>
       c.2 !! "llmtemp"
       = Some (match load_dotenv dotenv environ !! "LLM_TEMP" with
               | Some v => VStr v
               | None => VNone
               end) /\
       c.2 !! "max_tokens" = Some (VInt 512) /\
       forall key,
         key <> "llmtemp" -> key <> "max_tokens" ->
         c.2 !! key
         = params (openai_emulation W
                     (load_dotenv dotenv environ !! "LLM_HOST")
                     (load_dotenv dotenv environ !! "LLM_PORT")) !! key)
    (completions (trace (program W client dotenv environ evs))).
Proof.
  destruct (program_evolves W client dotenv environ evs) as [_ (new & -> & Hok)].
  rewrite main_run in Hok |- *. simpl in Hok |- *.
  apply event_ok_completions in Hok.
  eapply Forall_impl; [exact Hok |]. intros c ->. simpl. split_and!.
  - by rewrite lookup_insert_ne, lookup_insert_eq.
  - by rewrite lookup_insert_eq.
  - intros key Htemp Hmax. by rewrite !lookup_insert_ne.
Qed.

(** ** Placeholders *)

Lemma send_llm_msg_unbound W msg st :
  llm st = None ->
  send_llm_msg W msg st
  = (Err NameError, log [EvPrint [PStr (context_build W msg); PStr nl]] st).
Proof.
  intros Hl. rewrite send_llm_msg_unfold. unfold send_llm_msg_plain. run.
  by rewrite Hl.
Qed.

(** What a handled message leaves behind, whatever the completion does:
    one more message of the bot, one send, and as content of the new
    message the throbber when the handler raised, the truncated reply when
    it returned. *)
Lemma on_message_footprint W client m st :
  ignored client m = false ->
  exists body new,
    posted (on_message W client m st).2 = posted st ++ [(channel m, body)] /\
    trace (on_message W client m st).2 = trace st ++ new /\
    sends new = [(channel m, THROBBER)] /\
    (((exists e, (on_message W client m st).1 = Err e) /\ body = THROBBER) \/
     exists l clean resp text,
       llm st = Some l /\
       clean_msg (user client) (content m) = Ok clean /\
       openai_api_surrogate W (context_build W clean) (params l) = Ok resp /\
       oapi_choice1_text resp = Ok text /\
       (on_message W client m st).1 = Ok tt /\
       body = PyStr.take 2000 text).
Proof.
  intros Hign. destruct (clean_msg_total (user client) (content m)) as [clean Hclean].
  destruct (llm st) as [l|] eqn:Hl.
  - destruct (openai_api_surrogate W (context_build W clean) (params l))
      as [resp|e] eqn:Hresp.
    + destruct (oapi_choice1_text resp) as [text|e] eqn:Htext.
      * rewrite (on_message_ok _ _ _ _ _ _ _ _ Hign Hl Hclean Hresp Htext).
        do 2 eexists. split_and!; [reflexivity | reflexivity | reflexivity |].
        right. by exists l, clean, resp, text.
      * rewrite (on_message_payload_err _ _ _ _ _ _ _ _ Hign Hl Hclean Hresp Htext).
        do 2 eexists. split_and!; [reflexivity | reflexivity | reflexivity |].
        left. split; [by exists e | done].
    + rewrite (on_message_request_err _ _ _ _ _ _ _ Hign Hl Hclean Hresp).
      do 2 eexists. split_and!; [reflexivity | reflexivity | reflexivity |].
      left. split; [by exists e | done].
  - rewrite (on_message_handled _ _ _ _ _ Hign Hclean).
    erewrite bind_err by (by apply send_llm_msg_unbound).
    unfold set_posted, log. fields. rewrite <- !(assoc_L (++)).
    do 2 eexists. split_and!; [reflexivity | reflexivity | reflexivity |].
    left. split; [by exists NameError | done].
Qed.

(** X14: a handled message adds exactly one message of the bot, in the
    channel of the mention, and leaves every earlier message of the bot as
    it was, whatever the completion does.  When the handler raised, the new
    message holds the throbber; when it returned normally, the new message
    holds the first 2000 characters of the reply, that is, of the text
    extracted from what the completion endpoint answered to the prompt
    built from the cleaned message. *)
Theorem X14_handler_touches_only_its_placeholder (W : World) (client : Client)
    (m : Message) (st : state) :
  ignored client m = false ->
  exists body,
    posted (on_message W client m st).2 = posted st ++ [(channel m, body)] /\
    (forall i, (i < length (posted st))%nat ->
               posted (on_message W client m st).2 !! i = posted st !! i) /\
    (((exists e, (on_message W client m st).1 = Err e) /\ body = THROBBER) \/
     exists l clean resp text,
       llm st = Some l /\
       clean_msg (user client) (content m) = Ok clean /\
       openai_api_surrogate W (context_build W clean) (params l) = Ok resp /\
       oapi_choice1_text resp = Ok text /\
       (on_message W client m st).1 = Ok tt /\
       body = PyStr.take 2000 text).
Proof.
  intros Hign.
  destruct (on_message_footprint W client m st Hign) as (body & new & Hp & _ & _ & Hb).
  exists body. split_and!; [exact Hp | | exact Hb].
  intros i Hi. rewrite Hp. by apply lookup_app_l.
Qed.

Lemma X14_witness :
  exists body,
    posted (on_message Demo.world Demo.bot Demo.question
              (on_message Demo.world Demo.bot Demo.question Demo.started).2).2
    = [(5, PyStr.take 2000 "X is a letter")] ++ [(5, body)] /\
    body = PyStr.take 2000 "X is a letter".
Proof.
  destruct (X14_handler_touches_only_its_placeholder Demo.world Demo.bot
              Demo.question
              (on_message Demo.world Demo.bot Demo.question Demo.started).2
              eq_refl)
    as (body & Hp & _ & [[[e He] _] | (l & clean & resp & text & _ & _ & Hr & Ht & _ & ->)]).
  - vm_compute in He. discriminate.
  - exists (PyStr.take 2000 text). split; [exact Hp |].
    injection Hr as <-. injection Ht as <-. reflexivity.
Defined.

Lemma sends_app tr1 tr2 : sends (tr1 ++ tr2) = sends tr1 ++ sends tr2.
Proof. apply omap_app. Qed.

Lemma client_run_placeholders W client evs st :
  length (posted (client_run W client evs st))
  = (length (posted st) + handled_count client evs)%nat /\
  length (sends (trace (client_run W client evs st)))
  = (length (sends (trace st)) + handled_count client evs)%nat.
Proof.
  revert st. induction evs as [|ev evs IH]; intros st; simpl.
  - unfold handled_count. simpl. lia.
  - destruct (IH (dispatch W client ev st).2) as [IHp IHs].
    rewrite IHp, IHs. clear IH IHp IHs.
    unfold handled_count. destruct ev as [|m]; simpl.
    + rewrite on_ready_run. simpl. rewrite sends_app. simpl.
      rewrite (right_id_L [] (++)). lia.
    + destruct (ignored client m) eqn:Hign; simpl.
      * unfold on_message. rewrite Hign. simpl. lia.
      * destruct (on_message_footprint W client m st Hign)
          as (body & new & -> & -> & Hs & _).
        rewrite sends_app, Hs, !List.length_app. simpl. lia.
Qed.

(** X15: over a whole run, the bot has posted exactly one message per
    handled mention, and the log holds exactly that many sends: failed
    completions still leave their placeholder, ignored messages and [Ready]
    events post nothing. *)
Theorem X15_one_placeholder_per_handled_mention (W : World) (client : Client)
    (dotenv environ : gmap string string) (evs : list gateway_event) :
  length (posted (program W client dotenv environ evs))
  = handled_count client evs /\
  length (sends (trace (program W client dotenv environ evs)))
  = handled_count client evs.
Proof.
  unfold program.
  destruct (client_run_placeholders W client evs
              (main W dotenv environ initial_state).2) as [Hp Hs].
  rewrite Hp, Hs, main_run. simpl. done.
Qed.

(** ** One fetch per ingestion *)

(** X16: every run of [read_site] makes exactly one HTTP request, for the
    normalised url, whether the run then fails or not; the chunker is called
    once, on the converted text with size 200, overlap 20 and a newline
    separator, when the page was fetched and decoded, and not at all
    otherwise. *)
Theorem X16_one_fetch_per_ingestion (W : World) (url : string) (coll : nat)
    (st : state) :
  exists new,
    trace (read_site W url coll st).2 = trace st ++ new /\
    fetches new = [normalize_url url] /\
    splits new =
      match http_get W (normalize_url url) with
      | Ok resp =>
          match decode W (resp_content resp) (encoding_or_utf8 resp) with
          | Ok html => [(html2text W html, 200, 20, nl)]
          | Err _ => []
          end
      | Err _ => []
      end.
Proof.
  destruct (http_get W (normalize_url url)) as [resp|e] eqn:Hget.
  - destruct (decode W (resp_content resp) (encoding_or_utf8 resp))
      as [html|e] eqn:Hdec.
    + rewrite (read_site_fetched _ _ _ _ _ _ Hget Hdec). cbv zeta.
      unfold collection_update, collection_count, print. run.
      destruct (collections st !! coll) as [recs|] eqn:Hcoll; fields.
      * rewrite list_lookup_insert_eq by (by eapply lookup_lt_Some). fields.
        rewrite <- !(assoc_L (++)). by eexists.
      * by eexists.
    + rewrite (read_site_decode_err _ _ _ _ _ _ Hget Hdec). by eexists.
  - rewrite (read_site_fetch_err _ _ _ _ _ Hget). by eexists.
Qed.

(** ** Everyone pings that quote the id *)

Lemma app_cons_neq {A} (l : list A) (x : A) (rest : list A) :
  l ++ x :: rest <> l.
Proof.
  intros H. apply (f_equal length) in H.
  rewrite List.length_app in H. simpl in H. lia.
Qed.

(** C4 (the code at the failing input): an everyone or here ping written
    by someone else, which names no user and so does not mention the bot,
    is answered as soon as its content holds the digits of the bot's id.
    The guard lets it pass, the handler does not return with the state
    untouched: it posts the placeholder and builds a prompt from the
    message. *)
Theorem C4_everyone_ping_quoting_id_is_answered (W : World) (client : Client)
    (m : Message) (st : state) :
  author m <> user client ->
  existsb (Z.eqb (user client)) (mentions m) = false ->
  mention_everyone m = true ->
  PyStr.contains (PyStr.of_int (user client)) (content m) = true ->
  ignored client m = false /\
  on_message W client m st <> (Ok tt, st) /\
  exists clean rest,
    clean_msg (user client) (content m) = Ok clean /\
    trace (on_message W client m st).2
    = trace st ++ EvSend (channel m) THROBBER
        :: EvPrint [PStr (context_build W clean); PStr nl] :: rest.
Proof.
  intros Hauthor _ Hevery Hdigits.
  assert (ignored client m = false) as Hign.
  { unfold ignored, mentioned_in. rewrite Hevery, Hdigits.
    by apply Z.eqb_neq in Hauthor as ->. }
  destruct (clean_msg_total (user client) (content m)) as [clean Hclean].
  destruct (on_message_prompt_logged W client m st clean Hign Hclean)
    as [rest Hrest].
  split_and!; [exact Hign | | by exists clean, rest].
  intros Heq. rewrite Heq in Hrest. simpl in Hrest.
  symmetry in Hrest. by apply app_cons_neq in Hrest.
Qed.

Lemma C4_witness :
  (ignored Demo.bot Outage.potions = false /\
   on_message Demo.world Demo.bot Outage.potions Demo.started
   <> (Ok tt, Demo.started) /\
   exists clean rest,
     clean_msg 42 "@everyone bring 42 potions" = Ok clean /\
     trace (on_message Demo.world Demo.bot Outage.potions Demo.started).2
     = trace Demo.started ++ EvSend 5 THROBBER
         :: EvPrint [PStr (context_build Demo.world clean); PStr nl] :: rest) /\
  sends (trace (on_message Demo.world Demo.bot Outage.potions Demo.started).2)
  = [(5, THROBBER)] /\
  length (completions
            (trace (on_message Demo.world Demo.bot Outage.potions Demo.started).2))
  = 1%nat /\
  edits (trace (on_message Demo.world Demo.bot Outage.potions Demo.started).2)
  = [(0%nat, "X is a letter")].
Proof.
  split.
  - apply (C4_everyone_ping_quoting_id_is_answered Demo.world Demo.bot
             Outage.potions Demo.started);
      [discriminate | reflexivity | reflexivity | reflexivity].
  - vm_compute. done.
Defined.

Lemma X13_witness :
  Forall
    (fun c =>
       c.2 !! "llmtemp" = Some (VStr "0.5") /\
       c.2 !! "max_tokens" = Some (VInt 512))
    (completions
       (trace (program Demo.world Demo.bot ∅ Demo.environ
                 [Ready; MessageCreate Demo.question]))) /\
  completions
    (trace (program Demo.world Demo.bot ∅ Demo.environ
              [Ready; MessageCreate Demo.question]))
  <> [].
Proof.
  split.
  - eapply Forall_impl;
      [apply (X13_completion_kwargs Demo.world Demo.bot ∅ Demo.environ
                [Ready; MessageCreate Demo.question]) |].
    intros c (Htemp & Hmax & _). split; [exact Htemp | exact Hmax].
  - vm_compute. discriminate.
Defined.
